(** * lumiwealth_tradier/base.py: the request engine of [TradierApiBase]

    A shallow embedding of [TradierApiBase] (construction, [base_url],
    [date2str], [request] and its thin wrappers) and the properties of its
    retry loop, status validation and error surfacing.

    Python values are modelled as follows.
    - [str] is [string]; [int] is [Z]; the float [backoff_seconds] is a
      rational [Q]: the values [1.5 * 2 ** attempt] are exact in binary64
      for every attempt below 1024, and from attempt 1024 on the
      conversion of [2 ** attempt] to a float raises [OverflowError];
    - a [dict] is an association list in insertion order, [None] is [None]
      of an [option];
    - exceptions are the constructors of [exn]; a computation is a function
      from the trace of effects performed so far to an outcome and the
      extended trace;
    - the [requests] library is the transport: a function from the number of
      calls already made and the call's arguments to what that call does. *)

From Stdlib Require Import ZArith QArith List String Ascii Bool Lia.
From Stdlib Require Import DecimalString.
Import ListNotations.

Local Open Scope string_scope.
Local Open Scope Z_scope.

(** ** Strings and dictionaries *)

Definition dict (V : Type) : Type := list (string * V).

Fixpoint dict_get {V : Type} (k : string) (d : dict V) : option V :=
  match d with
  | [] => None
  | (k', v) :: d' => if String.eqb k k' then Some v else dict_get k d'
  end.

Definition dict_mem {V : Type} (k : string) (d : dict V) : bool :=
  match dict_get k d with Some _ => true | None => false end.

(** Python's [str(n)] and [f"{n}"] for an [int]. *)
Definition str_of_int (n : Z) : string :=
  NilZero.string_of_int (Z.to_int n).

(** Python's [sep.join(l)] on a list of [str]. *)
Fixpoint join (sep : string) (l : list string) : string :=
  match l with
  | [] => ""
  | [s] => s
  | s :: l' => s ++ sep ++ join sep l'
  end.

(** Python's [needle in hay] on two [str]: substring test. *)
Definition str_contains (needle hay : string) : bool :=
  match String.index 0 needle hay with Some _ => true | None => false end.

(** ** Decoded JSON values *)

#[local] Set Warnings "-register-all".

Inductive json : Type :=
| JNull
| JBool (b : bool)
| JNum (q : Q)
| JStr (s : string)
| JList (l : list json)
| JDict (d : list (string * json)).

(** Python truthiness, as used by [if ret_data and ...]. *)
Definition truthy (v : json) : bool :=
  match v with
  | JNull => false
  | JBool b => b
  | JNum q => negb (Qeq_bool q 0)
  | JStr s => negb (String.eqb s "")
  | JList l => match l with [] => false | _ => true end
  | JDict d => match d with [] => false | _ => true end
  end.

Definition is_str (k : string) (v : json) : bool :=
  match v with JStr s => String.eqb s k | _ => false end.

(** ** Exceptions *)

Inductive exn : Type :=
| ValueError (msg : string)
| TradierApiError (msg : string)
| UnboundLocalError (var : string)
| TypeError
| OverflowError
| RequestException (e : string)
| OtherException (e : string).

Inductive outcome (A : Type) : Type :=
| Return (a : A)
| Raise (e : exn)
| OutOfFuel.
Arguments Return {A} a.
Arguments Raise {A} e.
Arguments OutOfFuel {A}.

(** ** Effects: transport calls, warnings and sleeps *)

Record http_call : Type := mk_call {
  call_method : string;
  call_url : string;
  call_params : dict string;
  call_headers : option (dict string);
  call_data : option (dict string)
}.

Record response : Type := mk_response {
  status_code : Z;
  text : string;
  (** the result of [r.json()]; [None] when it raises [JSONDecodeError] *)
  json_body : option json
}.

Inductive warning : Type :=
| WarnRequestFailed (method e : string)
| WarnRetrying (method : string) (backoff_seconds : Q).

Inductive event : Type :=
| EvRequest (c : http_call)
| EvWarn (w : warning)
| EvSleep (seconds : Q).

Definition trace : Type := list event.

Definition is_request (e : event) : bool :=
  match e with EvRequest _ => true | _ => false end.

Definition requests_made (tr : trace) : list event := filter is_request tr.

Fixpoint sleeps_made (tr : trace) : list Q :=
  match tr with
  | [] => []
  | EvSleep q :: tr' => q :: sleeps_made tr'
  | _ :: tr' => sleeps_made tr'
  end.

Inductive transport_result : Type :=
| Responds (r : response)
| Fails (e : string)
| Crashes (e : string).

(** What the [n]-th call (counting from 0) of the HTTP library does:
    [Fails] is a [requests.exceptions.RequestException], [Crashes] any
    other exception. *)
Definition transport : Type := nat -> http_call -> transport_result.

(** ** The computation monad *)

Definition M (A : Type) : Type := trace -> outcome A * trace.

Definition ret {A : Type} (a : A) : M A := fun tr => (Return a, tr).

Definition raise {A : Type} (e : exn) : M A := fun tr => (Raise e, tr).

Definition bind {A B : Type} (m : M A) (k : A -> M B) : M B :=
  fun tr =>
    match m tr with
    | (Return a, tr') => k a tr'
    | (Raise e, tr') => (Raise e, tr')
    | (OutOfFuel, tr') => (OutOfFuel, tr')
    end.

Definition emit (e : event) : M unit := fun tr => (Return tt, (tr ++ [e])%list).

Declare Scope py_scope.
Delimit Scope py_scope with py.
Notation "x <- m ;; k" := (bind m (fun x => k))
  (at level 61, m at next level, right associativity) : py_scope.
Notation "m ;;; k" := (bind m (fun _ => k))
  (at level 61, right associativity) : py_scope.
Local Open Scope py_scope.

(** [try: body except requests.exceptions.RequestException as e: handler]. *)
Definition try_except_RequestException {A : Type}
    (body : M A) (handler : string -> M A) : M A :=
  fun tr =>
    match body tr with
    | (Raise (RequestException e), tr') => handler e tr'
    | other => other
    end.

Definition warn (w : warning) : M unit := emit (EvWarn w).

(** [time.sleep], an effect of the standard library: it is recorded with
    the duration it is given. *)
Definition sleep (seconds : Q) : M unit := emit (EvSleep seconds).

(** One call of [requests.get], [requests.post] or [requests.delete]. *)
Definition http (net : transport) (c : http_call) : M response :=
  fun tr =>
    let tr' := (tr ++ [EvRequest c])%list in
    match net (List.length (requests_made tr)) c with
    | Responds r => (Return r, tr')
    | Fails e => (Raise (RequestException e), tr')
    | Crashes e => (Raise (OtherException e), tr')
    end.

(** Reading a local variable that may not have been assigned. *)
Definition read_local {A : Type} (name : string) (v : option A) : M A :=
  match v with
  | Some a => ret a
  | None => raise (UnboundLocalError name)
  end.

(** ** The class *)

Definition TRADIER_LIVE_URL : string := "https://api.tradier.com".
Definition TRADIER_SANDBOX_URL : string := "https://sandbox.tradier.com".

Record TradierApiBase : Type := mk_TradierApiBase {
  is_paper : bool;
  ACCOUNT_NUMBER : string;
  AUTH_TOKEN : string;
  REQUESTS_HEADERS : dict string
}.

(** [__init__(self, account_number, auth_token, is_paper=True)]. *)
Definition init (account_number auth_token : string) (is_paper : bool)
    : TradierApiBase :=
  {| is_paper := is_paper;
     ACCOUNT_NUMBER := account_number;
     AUTH_TOKEN := auth_token;
     REQUESTS_HEADERS :=
       [("Authorization", "Bearer " ++ auth_token);
        ("Accept", "application/json")] |}.

Definition base_url (self : TradierApiBase) : string :=
  if is_paper self then TRADIER_SANDBOX_URL else TRADIER_LIVE_URL.

(** ** Pieces of [request] *)

(** [method not in ["get", "post", "delete"]], negated. *)
Definition method_allowed (method : string) : bool :=
  existsb (String.eqb method) ["get"; "post"; "delete"].

(** [if not params: params = {}], likewise for [data]. *)
Definition or_empty (d : option (dict string)) : dict string :=
  match d with
  | Some (kv :: d') => kv :: d'
  | _ => []
  end.

(** [r.status_code >= 200 and r.status_code < 300]. *)
Definition status_successful (code : Z) : bool :=
  (200 <=? code) && (code <? 300).

(** The negation of
    [r.status_code != 200 and r.status_code != 201 and r.status_code != 502]. *)
Definition status_accepted (code : Z) : bool :=
  negb (negb (code =? 200) && negb (code =? 201) && negb (code =? 502)).

(** The value of [1.5 * (2 ** attempt)] when it has one. *)
Definition backoff_seconds (attempt : Z) : Q :=
  (3 # 2) * inject_Z (2 ^ attempt).

(** The first [attempt] at which [2 ** attempt] is too large to convert
    to a float: the largest finite binary64 is below [2 ** 1024]. *)
Definition FLOAT_OVERFLOW_EXP : Z := 1024.

(** [backoff_seconds = 1.5 * (2 ** attempt)]: the product converts the
    integer [2 ** attempt] to a float, which raises [OverflowError] from
    [attempt = 1024] on; below, the product is exact. *)
Definition eval_backoff_seconds (attempt : Z) : M Q :=
  if attempt <? FLOAT_OVERFLOW_EXP then ret (backoff_seconds attempt)
  else raise OverflowError.

Definition msg_invalid_method (method : string) : string :=
  "Invalid method " ++ method
  ++ ". Must be one of ['get', 'post', 'delete']".

Definition msg_request_failed (method : string) (max_retries : Z) : string :=
  "Error: " ++ method ++ " request failed after "
  ++ str_of_int max_retries ++ " attempts.".

Definition msg_bad_status (code : Z) (body : string) : string :=
  "Error: " ++ str_of_int code ++ " - " ++ body.

Definition msg_api_error (msg : string) : string := "Error: " ++ msg.

(** Python's [key in v] for a string key: key membership in a [dict],
    element membership in a [list], substring of a [str]; other values are
    not iterable. *)
Definition py_in (key : string) (v : json) : M bool :=
  match v with
  | JDict d => ret (dict_mem key d)
  | JList l => ret (existsb (is_str key) l)
  | JStr s => ret (str_contains key s)
  | _ => raise TypeError
  end.

(** Python's [v[key]] for a string key, after [key in v] held. *)
Definition py_getitem (v : json) (key : string) : M json :=
  match v with
  | JDict d =>
      match dict_get key d with
      | Some x => ret x
      | None => raise (OtherException "KeyError")
      end
  | _ => raise TypeError
  end.

(** The elements of a list handed to [str.join], which must all be [str]. *)
Fixpoint str_items (l : list json) : option (list string) :=
  match l with
  | [] => Some []
  | JStr s :: l' =>
      match str_items l' with
      | Some ss => Some (s :: ss)
      | None => None
      end
  | _ :: _ => None
  end.

Record loop_state : Type := mk_loop_state {
  attempt : Z;
  successful : bool;
  r : option response
}.

Section Request.

(** Python's [str(v)] as applied by an f-string to a value that is not
    already a [str]; it belongs to the interpreter, not to this module. *)
Variable py_str : json -> string.

Variable net : transport.
Variable self : TradierApiBase.

(** [f"{msg}"]: a [str] is interpolated as it is. *)
Definition fmt_value (v : json) : string :=
  match v with
  | JStr s => s
  | _ => py_str v
  end.

Section Loop.

Variables (endpoint : string) (params : dict string)
          (headers : option (dict string)) (data : dict string)
          (method : string) (max_retries : Z).

Definition url : string := base_url self ++ "/" ++ endpoint.

(** The [if method == ... elif ...] dispatch inside the [try]; when no
    branch matches, [r] keeps its previous binding. *)
Definition dispatch (st : loop_state) : M (option response) :=
  if String.eqb method "get" then
    x <- http net (mk_call "get" url params headers None) ;; ret (Some x)
  else if String.eqb method "post" then
    x <- http net (mk_call "post" url params headers (Some data)) ;;
    ret (Some x)
  else if String.eqb method "delete" then
    x <- http net (mk_call "delete" url params headers (Some data)) ;;
    ret (Some x)
  else ret (r st).

(** One iteration of the [while] loop. *)
Definition attempt_once (st : loop_state) : M loop_state :=
  let attempt := attempt st + 1 in
  st1 <- try_except_RequestException
           (r' <- dispatch st ;;
            resp <- read_local "r" r' ;;
            ret (mk_loop_state attempt
                   (if status_successful (status_code resp) then true
                    else successful st)
                   r'))
           (fun e =>
              warn (WarnRequestFailed method e) ;;;
              ret (mk_loop_state attempt (successful st) (r st))) ;;
  if negb (successful st1) then
    if attempt <? max_retries then
      backoff <- eval_backoff_seconds attempt ;;
      warn (WarnRetrying method backoff) ;;;
      sleep backoff ;;;
      ret st1
    else raise (TradierApiError (msg_request_failed method max_retries))
  else ret st1.

(** [while (attempt < max_retries) and not successful: ...]. *)
Fixpoint retry_loop (fuel : nat) (st : loop_state) : M loop_state :=
  if (attempt st <? max_retries) && negb (successful st) then
    match fuel with
    | O => fun tr => (OutOfFuel, tr)
    | S fuel' => st' <- attempt_once st ;; retry_loop fuel' st'
    end
  else ret st.

End Loop.

(** [if ret_data and "errors" in ret_data and "error" in ret_data["errors"]]. *)
Definition has_api_error (ret_data : json) : M bool :=
  if truthy ret_data then
    has_errors <- py_in "errors" ret_data ;;
    if has_errors then
      errors <- py_getitem ret_data "errors" ;;
      py_in "error" errors
    else ret false
  else ret false.

(** The message built from [ret_data["errors"]["error"]]. *)
Definition api_error_msg (ret_data : json) : M string :=
  errors <- py_getitem ret_data "errors" ;;
  error <- py_getitem errors "error" ;;
  match error with
  | JList l =>
      match str_items l with
      | Some ss => ret (join " | " ss)
      | None => raise TypeError
      end
  | v => ret (fmt_value v)
  end.

(** Everything after the loop. *)
Definition check_response (st : loop_state) : M json :=
  resp <- read_local "r" (r st) ;;
  if negb (status_accepted (status_code resp)) then
    raise (TradierApiError (msg_bad_status (status_code resp) (text resp)))
  else
    let ret_data :=
      match json_body resp with
      | Some v => v
      | None => JDict []
      end in
    has_error <- has_api_error ret_data ;;
    if has_error then
      msg <- api_error_msg ret_data ;;
      raise (TradierApiError (msg_api_error msg))
    else ret ret_data.

(** [request(self, endpoint, params=None, headers=None, data=None,
    method="get", max_retries=3)]. *)
Definition request (endpoint : string) (params headers data : option (dict string))
    (method : string) (max_retries : Z) : M json :=
  let params := or_empty params in
  let data := or_empty data in
  if negb (method_allowed method) then
    raise (ValueError (msg_invalid_method method))
  else
    st <- retry_loop endpoint params headers data method max_retries
            (Z.to_nat max_retries) (mk_loop_state 0 false None) ;;
    check_response st.

(** [delete(self, endpoint, params=None, headers=None, data=None)]. *)
Definition delete (endpoint : string) (params headers data : option (dict string))
    : M json :=
  request endpoint params headers data "delete" 3.

(** [send(self, endpoint, data, headers=None)]. *)
Definition send (endpoint : string) (data headers : option (dict string))
    : M json :=
  request endpoint (Some []) headers data "post" 3.

End Request.

(** ** [date2str] *)

(** A [datetime.date]; a [datetime.datetime], its subclass, adds the time
    of day. Python keeps [MINYEAR <= year <= MAXYEAR], [1 <= month <= 12],
    [1 <= day <= 31], [0 <= hour < 24] and [0 <= minute < 60]. *)
Record date : Type := mk_date {
  year : Z;
  month : Z;
  day : Z
}.

Record datetime : Type := mk_datetime {
  dt_date : date;
  hour : Z;
  minute : Z
}.

(** The argument of [date2str]: [Union[str, dt.datetime, dt.date]]. *)
Inductive date_arg : Type :=
| AStr (s : string)
| ADate (d : date)
| ADateTime (d : datetime).

Definition MINYEAR : Z := 1.
Definition MAXYEAR : Z := 9999.

Definition date_in_range (d : date) : bool :=
  (MINYEAR <=? year d) && (year d <=? MAXYEAR)
  && (1 <=? month d) && (month d <=? 12)
  && (1 <=? day d) && (day d <=? 31).

Definition datetime_in_range (d : datetime) : bool :=
  date_in_range (dt_date d)
  && (0 <=? hour d) && (hour d <? 24)
  && (0 <=? minute d) && (minute d <? 60).

(** [s.zfill(width)] for a string of digits. *)
Definition zfill (width : nat) (s : string) : string :=
  String.concat "" (repeat "0" (width - String.length s)) ++ s.

(** The directives of [strftime] that [date2str] uses, as the C library
    under CPython formats them: [%Y] the year in decimal, without padding
    (a year below 1000 has fewer than four digits), [%m], [%d], [%H] and
    [%M] zero-padded to two. Any other directive is left as it is
    written. *)
Definition directive (c : ascii) (d : datetime) : string :=
  if Ascii.eqb c "Y" then str_of_int (year (dt_date d))
  else if Ascii.eqb c "m" then zfill 2 (str_of_int (month (dt_date d)))
  else if Ascii.eqb c "d" then zfill 2 (str_of_int (day (dt_date d)))
  else if Ascii.eqb c "H" then zfill 2 (str_of_int (hour d))
  else if Ascii.eqb c "M" then zfill 2 (str_of_int (minute d))
  else if Ascii.eqb c "%" then "%"
  else String "%" (String c "").

Fixpoint strftime (format_str : string) (d : datetime) : string :=
  match format_str with
  | "" => ""
  | String c rest =>
      if Ascii.eqb c "%" then
        match rest with
        | "" => "%"
        | String c' rest' => directive c' d ++ strftime rest' d
        end
      else String c (strftime rest d)
  end.

(** A [date] formats its time of day as midnight. *)
Definition at_midnight (d : date) : datetime :=
  {| dt_date := d; hour := 0; minute := 0 |}.

(** [date2str(date, include_min=False)]. *)
Definition date2str (date : date_arg) (include_min : bool) : string :=
  let format_str :=
    if negb include_min then "%Y-%m-%d" else "%Y-%m-%d %H:%M" in
  match date with
  | ADateTime d => strftime format_str d
  | ADate d => strftime format_str (at_midnight d)
  | AStr s => s
  end.

(** ** Vocabulary of the properties *)

(** The failures of [request] by kind; the code tells them apart only by
    the exception class and the text of its message. *)
Definition InvalidArgument (method : string) : exn :=
  ValueError (msg_invalid_method method).

Definition RequestFailed (method : string) (max_retries : Z) : exn :=
  TradierApiError (msg_request_failed method max_retries).

Definition ApiStatusError (code : Z) (body : string) : exn :=
  TradierApiError (msg_bad_status code body).

Definition ApiError (message : string) : exn :=
  TradierApiError (msg_api_error message).

(** The arguments one attempt hands to the HTTP library: [requests.get]
    receives no [data]. *)
Definition call_for (self : TradierApiBase) (endpoint : string)
    (params headers data : option (dict string)) (method : string)
    : http_call :=
  mk_call method (url self endpoint) (or_empty params) headers
    (if String.eqb method "get" then None else Some (or_empty data)).

(** What the transport did on the last call recorded in a trace. *)
Definition last_result (net : transport) (tr : trace)
    : option transport_result :=
  match rev (requests_made tr) with
  | EvRequest c :: earlier => Some (net (List.length earlier) c)
  | _ => None
  end.

(** The [errors.error] field of a decoded body, when both levels are
    JSON objects. *)
Definition errors_error (body : json) : option json :=
  match body with
  | JDict d =>
      match dict_get "errors" d with
      | Some (JDict e) => dict_get "error" e
      | _ => None
      end
  | _ => None
  end.

(** What [r.json()] followed by the [except] clause yields. *)
Definition decoded (resp : response) : json :=
  match json_body resp with
  | Some v => v
  | None => JDict []
  end.

(** The trace without its warnings: transport calls and sleeps in order. *)
Definition is_warning (e : event) : bool :=
  match e with EvWarn _ => true | _ => false end.

Definition calls_and_sleeps (tr : trace) : trace :=
  filter (fun e => negb (is_warning e)) tr.

(** A transport result that does not end the retry loop. *)
Definition unsuccessful (res : transport_result) : bool :=
  match res with
  | Responds resp => negb (status_successful (status_code resp))
  | Fails _ => true
  | Crashes _ => false
  end.

(** The attempts [lo], [lo + 1], ..., [lo + n - 1]. *)
Fixpoint attempts_from (lo : Z) (n : nat) : list Z :=
  match n with
  | O => []
  | S n' => lo :: attempts_from (lo + 1) n'
  end.

(** Calls and sleeps of [k + 1] unsuccessful attempts, the first of them
    being attempt number [a]. *)
Fixpoint retry_schedule (c : http_call) (a : Z) (k : nat) : trace :=
  match k with
  | O => [EvRequest c]
  | S k' =>
      EvRequest c :: EvSleep (backoff_seconds a) :: retry_schedule c (a + 1) k'
  end.

(** The state of the retry loop between two iterations: once [successful]
    is set, [r] is the 2xx response of the last transport call; until then
    either attempts remain or no iteration has run. *)
Definition loop_inv (net : transport) (max_retries : Z)
    (st : loop_state) (tr : trace) : Prop :=
  if successful st then
    exists resp,
      r st = Some resp
      /\ status_successful (status_code resp) = true
      /\ last_result net tr = Some (Responds resp)
  else attempt st < max_retries \/ r st = None.

(** A computation that does not run out of fuel. *)
Definition terminating {A : Type} (m : M A) : Prop :=
  forall tr, fst (m tr) <> OutOfFuel.

(** A computation that performs no effect. *)
Definition pure {A : Type} (m : M A) : Prop := forall tr, snd (m tr) = tr.

(** The spec's header policy: the instance's defaults, overridden and
    extended by the headers the caller supplies. *)
Definition dict_set {V : Type} (k : string) (v : V) (d : dict V) : dict V :=
  if dict_mem k d then
    map (fun kv => if String.eqb (fst kv) k then (k, v) else kv) d
  else (d ++ [(k, v)])%list.

Definition merged_headers (self : TradierApiBase)
    (headers : option (dict string)) : dict string :=
  fold_left (fun acc kv => dict_set (fst kv) (snd kv) acc)
    (or_empty headers) (REQUESTS_HEADERS self).

(** ** Shapes of formatted dates *)

Definition is_digit (c : ascii) : bool :=
  let n := nat_of_ascii c in (48 <=? n)%nat && (n <=? 57)%nat.

Definition is_letter (c : ascii) : bool :=
  let n := nat_of_ascii c in
  ((65 <=? n)%nat && (n <=? 90)%nat) || ((97 <=? n)%nat && (n <=? 122)%nat).

(** [has_shape shape s]: [s] is [shape] with a decimal digit in place of
    every letter, as in "YYYY-MM-DD". *)
Fixpoint has_shape (shape s : string) : bool :=
  match shape, s with
  | "", "" => true
  | String p shape', String c s' =>
      (if is_letter p then is_digit c else Ascii.eqb p c)
      && has_shape shape' s'
  | _, _ => false
  end.

(** The number written by the digits of [s] that stand where [shape] has
    the letter [field]. *)
Fixpoint read_field (field : ascii) (shape s : string) (acc : Z) : Z :=
  match shape, s with
  | String p shape', String c s' =>
      read_field field shape' s'
        (if Ascii.eqb p field
         then 10 * acc + (Z.of_nat (nat_of_ascii c) - 48)
         else acc)
  | _, _ => acc
  end.

(** The decimal digit [k], for [0 <= k <= 9]. *)
Definition digit_char (k : Z) : ascii := ascii_of_nat (Z.to_nat (48 + k)).

Definition digits2 (n : Z) : string :=
  String (digit_char (n / 10)) (String (digit_char (n mod 10)) "").

Definition digits4 (n : Z) : string :=
  String (digit_char (n / 1000))
    (String (digit_char (n / 100 mod 10))
       (String (digit_char (n / 10 mod 10))
          (String (digit_char (n mod 10)) ""))).

(** [f] holds of [lo], [lo + 1], ..., [lo + n - 1]. *)
Fixpoint holds_from (f : Z -> bool) (lo : Z) (n : nat) : bool :=
  match n with
  | O => true
  | S n' => f lo && holds_from f (lo + 1) n'
  end.

Definition digit_char_ok (k : Z) : bool :=
  is_digit (digit_char k)
  && (Z.of_nat (nat_of_ascii (digit_char k)) - 48 =? k).

(** [out] is the date [y]-[m]-[d] written as "YYYY-MM-DD". *)
Definition is_iso_date (out : string) (y m d : Z) : Prop :=
  has_shape "YYYY-MM-DD" out = true
  /\ read_field "Y" "YYYY-mm-dd" out 0 = y
  /\ read_field "m" "YYYY-mm-dd" out 0 = m
  /\ read_field "d" "YYYY-mm-dd" out 0 = d.

(** [out] is the minute [y]-[m]-[d] [H]:[M] written as "YYYY-MM-DD HH:MM". *)
Definition is_iso_minute (out : string) (y m d H M : Z) : Prop :=
  has_shape "YYYY-MM-DD HH:MM" out = true
  /\ read_field "Y" "YYYY-mm-dd HH:MM" out 0 = y
  /\ read_field "m" "YYYY-mm-dd HH:MM" out 0 = m
  /\ read_field "d" "YYYY-mm-dd HH:MM" out 0 = d
  /\ read_field "H" "YYYY-mm-dd HH:MM" out 0 = H
  /\ read_field "M" "YYYY-mm-dd HH:MM" out 0 = M.

(** ** Sample inputs *)

(** A stand-in for Python's [str] on values that are not strings. *)
Definition py_str_stub (v : json) : string := "<object>".

Definition demo : TradierApiBase := init "VA000001" "token" true.

(** A stub transport: every call does the same. *)
Definition always (res : transport_result) : transport := fun _ _ => res.

Definition body_bad_request : json :=
  JDict [("errors", JDict [("error", JStr "bad request")])].

Definition body_errors_a_b : json :=
  JDict [("errors", JDict [("error", JList [JStr "a"; JStr "b"])])].

Definition body_foo_bar : json := JDict [("foo", JStr "bar")].

Definition resp_400 : response :=
  mk_response 400 "{'errors':{'error':'bad request'}}" (Some body_bad_request).

Definition resp_200_errors : response :=
  mk_response 200 "{'errors':{'error':['a','b']}}" (Some body_errors_a_b).

Definition resp_200 : response :=
  mk_response 200 "{'foo': 'bar'}" (Some body_foo_bar).

Definition resp_502 : response :=
  mk_response 502 "<html>502 Bad Gateway</html>" None.

Definition resp_502_errors : response :=
  mk_response 502 "{'errors':{'error':'bad request'}}" (Some body_bad_request).

Definition sample_datetime : datetime := mk_datetime (mk_date 987 11 5) 7 3.

Definition sample_datetime_2024 : datetime :=
  mk_datetime (mk_date 2024 1 5) 9 30.

(** ** Vocabulary of the retry schedule *)

(** Calls and sleeps of [n] attempts in a row, numbered from 1: a sleep
    follows every attempt but the last. *)
Definition attempts_trace (c : http_call) (n : nat) : trace :=
  match n with
  | O => []
  | S k => retry_schedule c 1 k
  end.

(** Calls and sleeps of [k] unsuccessful attempts that are each retried,
    the first of them being attempt number [a]. *)
Fixpoint failed_attempts (c : http_call) (a : Z) (k : nat) : trace :=
  match k with
  | O => []
  | S k' =>
      EvRequest c :: EvSleep (backoff_seconds a) :: failed_attempts c (a + 1) k'
  end.

(** The time a call spent in [sleep], in seconds. *)
Definition total_sleep (tr : trace) : Q :=
  fold_right Qplus 0%Q (sleeps_made tr).

(** On the call [c] the transport is unsuccessful [k] times and then
    answers [resp], whose status ends the loop. *)
Definition succeeds_at (net : transport) (c : http_call) (k : nat)
    (resp : response) : Prop :=
  (forall n, (n < k)%nat -> unsuccessful (net n c) = true)
  /\ net k c = Responds resp
  /\ status_successful (status_code resp) = true.

(** On the call [c] the transport is unsuccessful [k] times and then
    raises an exception that is not a [RequestException]. *)
Definition crashes_at (net : transport) (c : http_call) (k : nat)
    (e : string) : Prop :=
  (forall n, (n < k)%nat -> unsuccessful (net n c) = true)
  /\ net k c = Crashes e.

(** A stub transport that times out [k] times and then does [res]. *)
Definition flaky (k : nat) (res : transport_result) : transport :=
  fun n _ => if (n <? k)%nat then Fails "timed out" else res.

(** A computation whose outcome does not depend on the trace and that
    performs no effect. *)
Definition constant {A : Type} (m : M A) : Prop :=
  exists o, forall tr, m tr = (o, tr).

(** Further sample responses. *)
Definition resp_204 : response := mk_response 204 "" None.

Definition resp_200_not_json : response := mk_response 200 "OK" None.

Definition resp_200_errors_null : response :=
  mk_response 200 "{'errors': null}" (Some (JDict [("errors", JNull)])).

Definition resp_200_errors_mixed : response :=
  mk_response 200 "{'errors': {'error': ['a', 1]}}"
    (Some (JDict [("errors", JDict [("error", JList [JStr "a"; JNum 1])])])).

(** ** Order of dates *)

(** Lexicographic combination of two comparisons. *)
Definition lex (c1 c2 : comparison) : comparison :=
  match c1 with
  | Eq => c2
  | _ => c1
  end.

(** Chronological comparison of two dates, and of two datetimes to the
    minute. *)
Definition compare_date (d1 d2 : date) : comparison :=
  lex (year d1 ?= year d2)
    (lex (month d1 ?= month d2) (day d1 ?= day d2)).

Definition compare_minute (d1 d2 : datetime) : comparison :=
  lex (year (dt_date d1) ?= year (dt_date d2))
    (lex (month (dt_date d1) ?= month (dt_date d2))
       (lex (day (dt_date d1) ?= day (dt_date d2))
          (lex (hour d1 ?= hour d2) (minute d1 ?= minute d2)))).

Definition digit_compare_ok (a : Z) : bool :=
  holds_from
    (fun b =>
       match Ascii.compare (digit_char a) (digit_char b), a ?= b with
       | Eq, Eq | Lt, Lt | Gt, Gt => true
       | _, _ => false
       end) 0 10.

Definition digits4_split_ok (n : Z) : bool :=
  String.eqb (digits4 n) (digits2 (n / 100) ++ digits2 (n mod 100)).

(** * Properties *)

Local Open Scope list_scope.

(** ** The method check *)

Lemma method_allowed_cases (method : string) :
  method_allowed method = true ->
  method = "get" \/ method = "post" \/ method = "delete".
Proof.
  unfold method_allowed; simpl.
  destruct (String.eqb_spec method "get") as [-> | _]; [now left |].
  destruct (String.eqb_spec method "post") as [-> | _]; [now right; left |].
  destruct (String.eqb_spec method "delete") as [-> | _]; [now right; right |].
  discriminate.
Qed.

(** ** Laws of the monad *)

Lemma bind_Return {A B : Type} (m : M A) (k : A -> M B) (tr tr' : trace) (a : A) :
  m tr = (Return a, tr') -> bind m k tr = k a tr'.
Proof. intros H; unfold bind; now rewrite H. Qed.

Lemma bind_Raise {A B : Type} (m : M A) (k : A -> M B) (tr tr' : trace) (e : exn) :
  m tr = (Raise e, tr') -> bind m k tr = (Raise e, tr').
Proof. intros H; unfold bind; now rewrite H. Qed.

Lemma requests_made_app (tr tr' : trace) :
  requests_made (tr ++ tr') = (requests_made tr ++ requests_made tr')%list.
Proof. apply filter_app. Qed.

Lemma sleeps_made_app (tr tr' : trace) :
  sleeps_made (tr ++ tr') = (sleeps_made tr ++ sleeps_made tr')%list.
Proof.
  induction tr as [| [c | w | q] tr IH]; simpl; [reflexivity | | |];
    now rewrite IH.
Qed.

Lemma calls_and_sleeps_app (tr tr' : trace) :
  calls_and_sleeps (tr ++ tr')
  = (calls_and_sleeps tr ++ calls_and_sleeps tr')%list.
Proof. apply filter_app. Qed.

Section RequestFacts.

Variable py_str : json -> string.
Variable net : transport.
Variable self : TradierApiBase.

Variables (endpoint : string) (params headers data : option (dict string))
          (method : string) (max_retries : Z).

Local Abbreviation the_call :=
  (call_for self endpoint params headers data method).

Local Abbreviation loop :=
  (retry_loop net self endpoint (or_empty params) headers (or_empty data)
     method max_retries).

Local Abbreviation step :=
  (attempt_once net self endpoint (or_empty params) headers (or_empty data)
     method max_retries).

(** With an allowed method the dispatch is one transport call. *)
Lemma dispatch_allowed (st : loop_state) :
  method_allowed method = true ->
  dispatch net self endpoint (or_empty params) headers (or_empty data) method st
  = (x <- http net the_call ;; ret (Some x)).
Proof.
  intros H.
  destruct (method_allowed_cases _ H) as [-> | [-> | ->]]; reflexivity.
Qed.

(** *** One iteration, by what the transport does *)

Lemma step_success (st : loop_state) (tr : trace) (resp : response) :
  method_allowed method = true ->
  net (List.length (requests_made tr)) the_call = Responds resp ->
  status_successful (status_code resp) = true ->
  step st tr
  = (Return (mk_loop_state (attempt st + 1) true (Some resp)),
     (tr ++ [EvRequest the_call])%list).
Proof.
  intros Hm Hnet Hok. unfold attempt_once.
  rewrite (dispatch_allowed st Hm).
  unfold try_except_RequestException, bind, http, read_local, ret.
  rewrite Hnet. simpl. rewrite Hok. reflexivity.
Qed.

Lemma step_bad_status (st : loop_state) (tr : trace) (resp : response) :
  method_allowed method = true ->
  successful st = false ->
  net (List.length (requests_made tr)) the_call = Responds resp ->
  status_successful (status_code resp) = false ->
  step st tr
  = if attempt st + 1 <? max_retries then
      if attempt st + 1 <? FLOAT_OVERFLOW_EXP then
        (Return (mk_loop_state (attempt st + 1) false (Some resp)),
         (tr ++ [EvRequest the_call;
                 EvWarn (WarnRetrying method
                           (backoff_seconds (attempt st + 1)));
                 EvSleep (backoff_seconds (attempt st + 1))])%list)
      else (Raise OverflowError, (tr ++ [EvRequest the_call])%list)
    else
      (Raise (RequestFailed method max_retries),
       (tr ++ [EvRequest the_call])%list).
Proof.
  intros Hm Hs Hnet Hok. unfold attempt_once.
  rewrite (dispatch_allowed st Hm).
  unfold try_except_RequestException, bind, http, read_local, ret.
  rewrite Hnet. simpl. rewrite Hok, Hs. simpl.
  destruct (attempt st + 1 <? max_retries); simpl; [| reflexivity].
  unfold eval_backoff_seconds.
  destruct (attempt st + 1 <? FLOAT_OVERFLOW_EXP); simpl; [| reflexivity].
  unfold warn, sleep, emit. simpl. now rewrite <- !app_assoc.
Qed.

Lemma step_fails (st : loop_state) (tr : trace) (e : string) :
  method_allowed method = true ->
  successful st = false ->
  net (List.length (requests_made tr)) the_call = Fails e ->
  step st tr
  = if attempt st + 1 <? max_retries then
      if attempt st + 1 <? FLOAT_OVERFLOW_EXP then
        (Return (mk_loop_state (attempt st + 1) false (r st)),
         (tr ++ [EvRequest the_call;
                 EvWarn (WarnRequestFailed method e);
                 EvWarn (WarnRetrying method
                           (backoff_seconds (attempt st + 1)));
                 EvSleep (backoff_seconds (attempt st + 1))])%list)
      else
        (Raise OverflowError,
         (tr ++ [EvRequest the_call;
                 EvWarn (WarnRequestFailed method e)])%list)
    else
      (Raise (RequestFailed method max_retries),
       (tr ++ [EvRequest the_call; EvWarn (WarnRequestFailed method e)])%list).
Proof.
  intros Hm Hs Hnet. unfold attempt_once.
  rewrite (dispatch_allowed st Hm).
  unfold try_except_RequestException, bind, http, read_local, ret.
  rewrite Hnet. simpl. unfold warn, emit. simpl. rewrite Hs. simpl.
  destruct (attempt st + 1 <? max_retries); simpl;
    [| now rewrite <- !app_assoc].
  unfold eval_backoff_seconds.
  destruct (attempt st + 1 <? FLOAT_OVERFLOW_EXP); simpl.
  - unfold sleep, emit. simpl. now rewrite <- !app_assoc.
  - now rewrite <- !app_assoc.
Qed.

Lemma step_crashes (st : loop_state) (tr : trace) (e : string) :
  method_allowed method = true ->
  net (List.length (requests_made tr)) the_call = Crashes e ->
  step st tr = (Raise (OtherException e), (tr ++ [EvRequest the_call])%list).
Proof.
  intros Hm Hnet. unfold attempt_once.
  rewrite (dispatch_allowed st Hm).
  unfold try_except_RequestException, bind, http, read_local, ret.
  rewrite Hnet. reflexivity.
Qed.

(** *** The loop *)

Lemma loop_done (fuel : nat) (st : loop_state) :
  (attempt st <? max_retries) && negb (successful st) = false ->
  loop fuel st = ret st.
Proof. intros H. destruct fuel; simpl; now rewrite H. Qed.

Lemma loop_again (fuel : nat) (st : loop_state) :
  (attempt st <? max_retries) && negb (successful st) = true ->
  loop (S fuel) st = (st' <- step st ;; loop fuel st').
Proof. intros H. simpl. now rewrite H. Qed.


Lemma loop_first_success (fuel : nat) (st : loop_state) (tr : trace)
    (resp : response) :
  method_allowed method = true ->
  successful st = false ->
  attempt st < max_retries ->
  net (List.length (requests_made tr)) the_call = Responds resp ->
  status_successful (status_code resp) = true ->
  loop (S fuel) st tr
  = (Return (mk_loop_state (attempt st + 1) true (Some resp)),
     tr ++ [EvRequest the_call]).
Proof.
  intros Hm Hs Hlt Hnet Hok.
  rewrite loop_again.
  - rewrite (bind_Return _ _ _ _ _ (step_success st tr resp Hm Hnet Hok)).
    rewrite loop_done; [reflexivity |].
    simpl. apply andb_false_r.
  - rewrite Hs. apply Z.ltb_lt in Hlt. now rewrite Hlt.
Qed.

(** When no attempt succeeds, the loop uses every attempt that is left,
    sleeps between two attempts and never after the last one, and raises. *)
Lemma loop_exhausted :
  method_allowed method = true ->
  (forall n c, unsuccessful (net n c) = true) ->
  max_retries <= FLOAT_OVERFLOW_EXP ->
  forall (k fuel : nat) (st : loop_state) (tr : trace),
    successful st = false ->
    max_retries - attempt st = Z.of_nat (S k) ->
    (k < fuel)%nat ->
    exists tr',
      loop fuel st tr = (Raise (RequestFailed method max_retries), tr')
      /\ calls_and_sleeps tr'
         = calls_and_sleeps tr ++ retry_schedule the_call (attempt st + 1) k.
Proof.
  intros Hm Hall Hfloat k. unfold FLOAT_OVERFLOW_EXP in Hfloat.
  induction k as [| k IH]; intros fuel st tr Hs Hrem Hfuel;
    (destruct fuel as [| fuel]; [lia |]);
    (rewrite loop_again;
       [| rewrite Hs; replace (attempt st <? max_retries) with true;
          [reflexivity | symmetry; apply Z.ltb_lt; lia]]);
    pose proof (Hall (List.length (requests_made tr)) the_call) as Hun;
    destruct (net (List.length (requests_made tr)) the_call)
      as [resp | e | e] eqn:Hnet; simpl in Hun; try discriminate.
  - apply negb_true_iff in Hun.
    pose proof (step_bad_status st tr resp Hm Hs Hnet Hun) as Hstep.
    replace (attempt st + 1 <? max_retries) with false in Hstep
      by (symmetry; apply Z.ltb_ge; lia).
    rewrite (bind_Raise _ _ _ _ _ Hstep).
    eexists; split; [reflexivity |].
    now rewrite calls_and_sleeps_app.
  - pose proof (step_fails st tr e Hm Hs Hnet) as Hstep.
    replace (attempt st + 1 <? max_retries) with false in Hstep
      by (symmetry; apply Z.ltb_ge; lia).
    rewrite (bind_Raise _ _ _ _ _ Hstep).
    eexists; split; [reflexivity |].
    now rewrite calls_and_sleeps_app.
  - apply negb_true_iff in Hun.
    pose proof (step_bad_status st tr resp Hm Hs Hnet Hun) as Hstep.
    replace (attempt st + 1 <? max_retries) with true in Hstep
      by (symmetry; apply Z.ltb_lt; lia).
    replace (attempt st + 1 <? FLOAT_OVERFLOW_EXP) with true in Hstep
      by (symmetry; apply Z.ltb_lt; unfold FLOAT_OVERFLOW_EXP; lia).
    rewrite (bind_Return _ _ _ _ _ Hstep).
    edestruct (IH fuel) as [tr' [Hrun Htr]];
      [| | | exists tr'; split; [exact Hrun |]]; simpl; try lia; try reflexivity.
    rewrite Htr, calls_and_sleeps_app, <- app_assoc. reflexivity.
  - pose proof (step_fails st tr e Hm Hs Hnet) as Hstep.
    replace (attempt st + 1 <? max_retries) with true in Hstep
      by (symmetry; apply Z.ltb_lt; lia).
    replace (attempt st + 1 <? FLOAT_OVERFLOW_EXP) with true in Hstep
      by (symmetry; apply Z.ltb_lt; unfold FLOAT_OVERFLOW_EXP; lia).
    rewrite (bind_Return _ _ _ _ _ Hstep).
    edestruct (IH fuel) as [tr' [Hrun Htr]];
      [| | | exists tr'; split; [exact Hrun |]]; simpl; try lia; try reflexivity.
    rewrite Htr, calls_and_sleeps_app, <- app_assoc. reflexivity.
Qed.

(** *** The code after the loop performs no effect *)

Lemma pure_ret {A : Type} (a : A) : pure (ret a).
Proof. now intros tr. Qed.

Lemma pure_raise {A : Type} (e : exn) : pure (@raise A e).
Proof. now intros tr. Qed.

Lemma pure_bind {A B : Type} (m : M A) (k : A -> M B) :
  pure m -> (forall a, pure (k a)) -> pure (bind m k).
Proof.
  intros Hm Hk tr. unfold bind. specialize (Hm tr).
  destruct (m tr) as [[a | e |] tr1]; simpl in Hm; subst; [apply Hk | |];
    reflexivity.
Qed.

Lemma pure_py_in (key : string) (v : json) : pure (py_in key v).
Proof. destruct v; simpl; auto using pure_ret, pure_raise. Qed.

Lemma pure_py_getitem (v : json) (key : string) : pure (py_getitem v key).
Proof.
  destruct v; simpl; auto using pure_raise.
  destruct (dict_get key d); auto using pure_ret, pure_raise.
Qed.

Lemma pure_has_api_error (ret_data : json) : pure (has_api_error ret_data).
Proof.
  unfold has_api_error. destruct (truthy ret_data); [| apply pure_ret].
  apply pure_bind; [apply pure_py_in |].
  intros [|]; [| apply pure_ret].
  apply pure_bind; [apply pure_py_getitem | intros; apply pure_py_in].
Qed.

Lemma pure_api_error_msg (ret_data : json) :
  pure (api_error_msg py_str ret_data).
Proof.
  unfold api_error_msg.
  apply pure_bind; [apply pure_py_getitem | intros errors].
  apply pure_bind; [apply pure_py_getitem | intros error].
  destruct error; try apply pure_ret.
  destruct (str_items l); [apply pure_ret | apply pure_raise].
Qed.

Lemma pure_check_response (st : loop_state) :
  pure (check_response py_str st).
Proof.
  unfold check_response.
  apply pure_bind;
    [unfold read_local; destruct (r st); auto using pure_ret, pure_raise
    | intros resp'].
  destruct (negb (status_accepted (status_code resp'))); [apply pure_raise |].
  apply pure_bind; [apply pure_has_api_error |].
  intros [|]; [| apply pure_ret].
  apply pure_bind; [apply pure_api_error_msg | intros; apply pure_raise].
Qed.

(** What [check_response] returns, when it returns, is the decoded body of
    the response the loop left in [r], and its status passed the check. *)
Lemma check_response_Return (st : loop_state) (tr tr' : trace) (v : json) :
  check_response py_str st tr = (Return v, tr') ->
  exists resp,
    r st = Some resp /\ status_accepted (status_code resp) = true
    /\ v = decoded resp /\ tr' = tr.
Proof.
  intros H.
  pose proof (pure_check_response st tr) as Hp. rewrite H in Hp. simpl in Hp.
  revert H. unfold check_response, read_local.
  destruct (r st) as [resp |]; [| discriminate].
  unfold bind at 1. simpl.
  destruct (status_accepted (status_code resp)) eqn:Hacc; [| discriminate].
  simpl. fold (decoded resp). unfold bind at 1.
  destruct (has_api_error (decoded resp) tr) as [[[|] | e |] tr1];
    try discriminate.
  - unfold bind. destruct (api_error_msg py_str (decoded resp) tr1)
      as [[msg | e |] tr2]; discriminate.
  - unfold ret. intros [= <- <-]. exists resp. auto.
Qed.

(** *** Termination *)

Lemma step_attempt (st st' : loop_state) (tr tr' : trace) :
  step st tr = (Return st', tr') -> attempt st' = attempt st + 1.
Proof.
  unfold attempt_once, bind, try_except_RequestException.
  destruct (dispatch _ _ _ _ _ _ _ st tr) as [[r' | [] |] tr1]; simpl;
    try discriminate.
  - unfold read_local.
    destruct r' as [resp |]; simpl; [| discriminate].
    destruct (status_successful (status_code resp)); simpl.
    + now intros [= <- _].
    + destruct (successful st); simpl; [now intros [= <- _] |].
      destruct (attempt st + 1 <? max_retries); simpl; [| discriminate].
      unfold eval_backoff_seconds.
      destruct (attempt st + 1 <? FLOAT_OVERFLOW_EXP); simpl;
        [now intros [= <- _] | discriminate].
  - destruct (successful st); simpl; [now intros [= <- _] |].
    destruct (attempt st + 1 <? max_retries); simpl; [| discriminate].
    unfold eval_backoff_seconds.
    destruct (attempt st + 1 <? FLOAT_OVERFLOW_EXP); simpl;
      [now intros [= <- _] | discriminate].
Qed.

Lemma step_not_OutOfFuel (st : loop_state) (tr : trace) :
  fst (step st tr) <> OutOfFuel.
Proof.
  unfold attempt_once, bind, try_except_RequestException.
  assert (Hd : fst (dispatch net self endpoint (or_empty params) headers
                      (or_empty data) method st tr) <> OutOfFuel).
  { unfold dispatch, bind, http, ret.
    repeat match goal with
           | |- context [if ?b then _ else _] => destruct b
           end;
      try destruct (net _ _); simpl; discriminate. }
  destruct (dispatch _ _ _ _ _ _ _ st tr) as [[r' | [] |] tr1]; simpl in *;
    try discriminate; try congruence.
  - unfold read_local.
    destruct r' as [resp |]; simpl; [| discriminate].
    destruct (status_successful (status_code resp)); simpl; [discriminate |].
    destruct (successful st); simpl; [discriminate |].
    destruct (attempt st + 1 <? max_retries); simpl; [| discriminate].
    unfold eval_backoff_seconds.
    destruct (attempt st + 1 <? FLOAT_OVERFLOW_EXP); simpl; discriminate.
  - destruct (successful st); simpl; [discriminate |].
    destruct (attempt st + 1 <? max_retries); simpl; [| discriminate].
    unfold eval_backoff_seconds.
    destruct (attempt st + 1 <? FLOAT_OVERFLOW_EXP); simpl; discriminate.
Qed.

(** The loop needs no more fuel than there are attempts left. *)
Lemma loop_not_OutOfFuel (fuel : nat) :
  forall (st : loop_state) (tr : trace),
    (Z.to_nat (max_retries - attempt st) <= fuel)%nat ->
    fst (loop fuel st tr) <> OutOfFuel.
Proof.
  induction fuel as [| fuel IH]; intros st tr Hfuel;
    destruct ((attempt st <? max_retries) && negb (successful st)) eqn:Hc;
    try (rewrite (loop_done _ st Hc); discriminate).
  - apply andb_true_iff in Hc. destruct Hc as [Hlt _].
    apply Z.ltb_lt in Hlt. lia.
  - rewrite (loop_again _ st Hc). unfold bind.
    pose proof (step_not_OutOfFuel st tr) as Hs.
    destruct (step st tr) as [[st' | e |] tr'] eqn:Hstep; simpl in Hs;
      try discriminate; try congruence.
    apply IH. apply step_attempt in Hstep. lia.
Qed.

(** *** The loop invariant *)

Lemma last_result_snoc (tr : trace) (c : http_call) :
  last_result net (tr ++ [EvRequest c])
  = Some (net (List.length (requests_made tr)) c).
Proof.
  unfold last_result. rewrite requests_made_app. simpl.
  rewrite rev_unit. now rewrite length_rev.
Qed.

Lemma step_inv (st st' : loop_state) (tr tr' : trace) :
  method_allowed method = true ->
  successful st = false ->
  step st tr = (Return st', tr') ->
  loop_inv net max_retries st' tr'.
Proof.
  intros Hm Hs Hstep.
  destruct (net (List.length (requests_made tr)) the_call)
    as [resp | e | e] eqn:Hnet.
  - destruct (status_successful (status_code resp)) eqn:Hok.
    + rewrite (step_success st tr resp Hm Hnet Hok) in Hstep.
      injection Hstep as <- <-. unfold loop_inv; simpl.
      exists resp. rewrite last_result_snoc, Hnet. auto.
    + rewrite (step_bad_status st tr resp Hm Hs Hnet Hok) in Hstep.
      destruct (attempt st + 1 <? max_retries) eqn:Hlt; [| discriminate].
      destruct (attempt st + 1 <? FLOAT_OVERFLOW_EXP); [| discriminate].
      injection Hstep as <- <-. unfold loop_inv; simpl.
      left. now apply Z.ltb_lt.
  - rewrite (step_fails st tr e Hm Hs Hnet) in Hstep.
    destruct (attempt st + 1 <? max_retries) eqn:Hlt; [| discriminate].
    destruct (attempt st + 1 <? FLOAT_OVERFLOW_EXP); [| discriminate].
    injection Hstep as <- <-. unfold loop_inv; simpl.
    left. now apply Z.ltb_lt.
  - rewrite (step_crashes st tr e Hm Hnet) in Hstep. discriminate.
Qed.

Lemma loop_inv_exit (fuel : nat) :
  method_allowed method = true ->
  forall (st st' : loop_state) (tr tr' : trace),
    loop_inv net max_retries st tr ->
    loop fuel st tr = (Return st', tr') ->
    loop_inv net max_retries st' tr'
    /\ (attempt st' <? max_retries) && negb (successful st') = false.
Proof.
  intros Hm.
  induction fuel as [| fuel IH]; intros st st' tr tr' Hinv Hrun;
    destruct ((attempt st <? max_retries) && negb (successful st)) eqn:Hc;
    try (rewrite (loop_done _ st Hc) in Hrun; injection Hrun as <- <-;
         now split).
  - simpl in Hrun. rewrite Hc in Hrun. discriminate.
  - rewrite (loop_again _ st Hc) in Hrun. unfold bind in Hrun.
    destruct (step st tr) as [[st1 | e |] tr1] eqn:Hstep; try discriminate.
    apply (IH st1 st' tr1 tr'); [| exact Hrun].
    apply andb_true_iff in Hc. destruct Hc as [_ Hs].
    apply negb_true_iff in Hs.
    exact (step_inv st st1 tr tr1 Hm Hs Hstep).
Qed.

(** The loop hands over either no response at all or a 2xx response, the
    one the last transport call returned. *)
Lemma loop_exit_state (fuel : nat) (st' : loop_state) (tr tr' : trace) :
  method_allowed method = true ->
  loop fuel (mk_loop_state 0 false None) tr = (Return st', tr') ->
  r st' = None
  \/ exists resp,
       r st' = Some resp
       /\ status_successful (status_code resp) = true
       /\ last_result net tr' = Some (Responds resp).
Proof.
  intros Hm Hrun.
  assert (Hinit : loop_inv net max_retries (mk_loop_state 0 false None) tr)
    by (now right).
  destruct (loop_inv_exit fuel Hm _ _ _ _ Hinit Hrun) as [Hinv Hc].
  unfold loop_inv in Hinv.
  destruct (successful st'); [now right |].
  rewrite andb_true_r in Hc. apply Z.ltb_ge in Hc.
  destruct Hinv as [Hlt | Hnone]; [lia | now left].
Qed.

Lemma status_200_or_201 (code : Z) :
  status_successful code = true -> status_accepted code = true ->
  code = 200 \/ code = 201.
Proof.
  unfold status_successful, status_accepted. intros Hs Ha.
  destruct (Z.eqb_spec code 200); [now left |].
  destruct (Z.eqb_spec code 201); [now right |].
  destruct (Z.eqb_spec code 502); [subst; discriminate | discriminate].
Qed.

Lemma request_not_allowed (tr : trace) :
  method_allowed method = false ->
  request py_str net self endpoint params headers data method max_retries tr
  = (Raise (ValueError (msg_invalid_method method)), tr).
Proof. intros Hm. unfold request. now rewrite Hm. Qed.

Lemma request_allowed (tr : trace) :
  method_allowed method = true ->
  request py_str net self endpoint params headers data method max_retries tr
  = (st <- loop (Z.to_nat max_retries) (mk_loop_state 0 false None) ;;
     check_response py_str st) tr.
Proof. intros Hm. unfold request. now rewrite Hm. Qed.

Lemma terminating_ret {A : Type} (a : A) : terminating (ret a).
Proof. intros tr; discriminate. Qed.

Lemma terminating_raise {A : Type} (e : exn) : terminating (@raise A e).
Proof. intros tr; discriminate. Qed.

Lemma terminating_bind {A B : Type} (m : M A) (k : A -> M B) :
  terminating m -> (forall a, terminating (k a)) -> terminating (bind m k).
Proof.
  intros Hm Hk tr. unfold bind. specialize (Hm tr).
  destruct (m tr) as [[a | e |] tr1]; simpl in *;
    [apply Hk | discriminate | congruence].
Qed.

Lemma terminating_py_in (key : string) (v : json) :
  terminating (py_in key v).
Proof. destruct v; simpl; auto using terminating_ret, terminating_raise. Qed.

Lemma terminating_py_getitem (v : json) (key : string) :
  terminating (py_getitem v key).
Proof.
  destruct v; simpl; auto using terminating_raise.
  destruct (dict_get key d); auto using terminating_ret, terminating_raise.
Qed.

Lemma terminating_check_response (st : loop_state) :
  terminating (check_response py_str st).
Proof.
  unfold check_response.
  apply terminating_bind;
    [unfold read_local; destruct (r st);
     auto using terminating_ret, terminating_raise
    | intros resp].
  destruct (negb (status_accepted (status_code resp)));
    [apply terminating_raise |].
  apply terminating_bind.
  - unfold has_api_error.
    destruct (truthy _); [| apply terminating_ret].
    apply terminating_bind; [apply terminating_py_in |].
    intros [|]; [| apply terminating_ret].
    apply terminating_bind;
      [apply terminating_py_getitem | intros; apply terminating_py_in].
  - intros [|]; [| apply terminating_ret].
    apply terminating_bind; [| intros; apply terminating_raise].
    unfold api_error_msg.
    apply terminating_bind; [apply terminating_py_getitem | intros errors].
    apply terminating_bind; [apply terminating_py_getitem | intros error].
    destruct error; try apply terminating_ret.
    destruct (str_items l); [apply terminating_ret | apply terminating_raise].
Qed.

(** [request] always terminates: the fuel it gives the loop suffices. *)
Lemma request_terminating :
  terminating (request py_str net self endpoint params headers data method
                 max_retries).
Proof.
  unfold request.
  destruct (method_allowed method); simpl; [| apply terminating_raise].
  apply terminating_bind; [| apply terminating_check_response].
  intros tr. apply loop_not_OutOfFuel. simpl. lia.
Qed.

(** *** From one iteration to the whole call *)

Lemma request_first_success (tr : trace) (resp : response) :
  method_allowed method = true ->
  1 <= max_retries ->
  net (List.length (requests_made tr)) the_call = Responds resp ->
  status_successful (status_code resp) = true ->
  request py_str net self endpoint params headers data method max_retries tr
  = check_response py_str (mk_loop_state 1 true (Some resp))
      (tr ++ [EvRequest the_call]).
Proof.
  intros Hm Hmax Hnet Hok. rewrite (request_allowed tr Hm).
  destruct (Z.to_nat max_retries) as [| fuel] eqn:Hfuel; [lia |].
  apply bind_Return.
  apply (loop_first_success fuel (mk_loop_state 0 false None) tr resp);
    auto; simpl; lia.
Qed.

Lemma str_items_map (ss : list string) : str_items (map JStr ss) = Some ss.
Proof. induction ss as [| s ss IH]; simpl; [| rewrite IH]; reflexivity. Qed.

(** With an [errors.error] field in the body the check after the loop
    raises, with the message built from the field. *)
Lemma check_response_api_error (st : loop_state) (tr : trace)
    (resp : response) (body v : json) :
  r st = Some resp ->
  status_accepted (status_code resp) = true ->
  json_body resp = Some body ->
  errors_error body = Some v ->
  check_response py_str st tr
  = (msg <- match v with
            | JList l =>
                match str_items l with
                | Some ss => ret (join " | " ss)
                | None => raise TypeError
                end
            | _ => ret (fmt_value py_str v)
            end ;;
     raise (TradierApiError (msg_api_error msg))) tr.
Proof.
  intros Hr Hacc Hbody Hv.
  unfold check_response. rewrite Hr. unfold read_local, bind at 1, ret at 1.
  rewrite Hacc, Hbody. simpl negb. cbv iota.
  destruct body as [| | | | | d]; try discriminate. simpl in Hv.
  destruct (dict_get "errors" d) as [[| | | | | e] |] eqn:Hd; try discriminate.
  assert (Ht : truthy (JDict d) = true)
    by (destruct d; [discriminate | reflexivity]).
  unfold has_api_error. rewrite Ht.
  unfold bind, py_in, py_getitem, ret, dict_mem, api_error_msg, bind,
    py_getitem, ret.
  rewrite Hd, Hv. destruct v; try reflexivity.
Qed.

Lemma requests_made_schedule (c : http_call) (k : nat) :
  forall a, requests_made (retry_schedule c a k) = repeat (EvRequest c) (S k).
Proof.
  induction k as [| k IH]; intros a; [reflexivity |].
  simpl retry_schedule. unfold requests_made in *. simpl filter.
  now rewrite IH.
Qed.

Lemma sleeps_made_schedule (c : http_call) (k : nat) :
  forall a,
    sleeps_made (retry_schedule c a k) = map backoff_seconds (attempts_from a k).
Proof.
  induction k as [| k IH]; intros a; [reflexivity |].
  simpl. now rewrite IH.
Qed.

Lemma requests_made_calls_and_sleeps (tr : trace) :
  requests_made (calls_and_sleeps tr) = requests_made tr.
Proof.
  induction tr as [| [c | w | q] tr IH]; simpl; [reflexivity | | |];
    unfold requests_made in *; simpl; now rewrite ?IH.
Qed.

Lemma sleeps_made_calls_and_sleeps (tr : trace) :
  sleeps_made (calls_and_sleeps tr) = sleeps_made tr.
Proof.
  induction tr as [| [c | w | q] tr IH]; simpl; [reflexivity | | |];
    now rewrite ?IH.
Qed.

(** A call in which no attempt succeeds: [max_retries] transport calls,
    a sleep after each but the last, and the retry-exhaustion failure. *)
Lemma request_exhausted :
  method_allowed method = true ->
  1 <= max_retries <= FLOAT_OVERFLOW_EXP ->
  (forall n c, unsuccessful (net n c) = true) ->
  exists tr',
    request py_str net self endpoint params headers data method max_retries []
    = (Raise (RequestFailed method max_retries), tr')
    /\ calls_and_sleeps tr'
       = retry_schedule the_call 1 (Z.to_nat max_retries - 1).
Proof.
  intros Hm [Hmax Hfloat] Hall.
  destruct (loop_exhausted Hm Hall Hfloat (Z.to_nat max_retries - 1)
              (Z.to_nat max_retries) (mk_loop_state 0 false None) [])
    as [tr' [Hrun Htr]]; simpl; try lia.
  exists tr'. split; [| exact Htr].
  rewrite (request_allowed [] Hm). now apply bind_Raise.
Qed.

(** ** The properties of [request] *)

(** C4. A method outside get, post and delete makes [request] raise the
    [ValueError] of the method check, whatever the other arguments are, and
    the trace is left as it was: no transport call, no warning, no sleep. *)
Theorem request_invalid_method (tr : trace) :
  method_allowed method = false ->
  request py_str net self endpoint params headers data method max_retries tr
  = (Raise (InvalidArgument method), tr).
Proof. exact (request_not_allowed tr). Qed.

(** C6. When the first response has status 200 and decodes to
    [{"foo": "bar"}], [request] returns that mapping; its trace is the one
    transport call, so there is exactly one attempt and no sleep. *)
Theorem request_ok_first_attempt (resp : response) :
  method_allowed method = true ->
  1 <= max_retries ->
  (forall c, net 0%nat c = Responds resp) ->
  status_code resp = 200 ->
  json_body resp = Some body_foo_bar ->
  let out :=
    request py_str net self endpoint params headers data method max_retries []
  in
  out = (Return body_foo_bar, [EvRequest the_call])
  /\ List.length (requests_made (snd out)) = 1%nat
  /\ sleeps_made (snd out) = [].
Proof.
  intros Hm Hmax Hnet Hst Hbody out.
  assert (Hout : out = (Return body_foo_bar, [EvRequest the_call])).
  { subst out.
    rewrite (request_first_success [] resp Hm Hmax (Hnet _));
      [| now rewrite Hst].
    unfold check_response. simpl. unfold bind at 1. simpl.
    now rewrite Hst, Hbody. }
  rewrite Hout. repeat split.
Qed.

(** X18. A first response that ends the loop (2xx) and passes the status
    check, so one with status 200 or 201, whose decoded body has an
    [errors.error] field, makes [request] raise [TradierApiError] on the
    first attempt; the message, after the code's "Error: " prefix, is the
    field itself when it is a string and its elements joined by " | " when
    it is a list of strings. *)
Theorem request_api_error (resp : response) (body v : json) :
  method_allowed method = true ->
  1 <= max_retries ->
  (forall c, net 0%nat c = Responds resp) ->
  status_successful (status_code resp) = true ->
  status_accepted (status_code resp) = true ->
  json_body resp = Some body ->
  errors_error body = Some v ->
  (forall s, v = JStr s ->
     request py_str net self endpoint params headers data method max_retries []
     = (Raise (ApiError s), [EvRequest the_call]))
  /\ (forall ss, v = JList (map JStr ss) ->
        request py_str net self endpoint params headers data method
          max_retries []
        = (Raise (ApiError (join " | " ss)), [EvRequest the_call])).
Proof.
  intros Hm Hmax Hnet Hok Hacc Hbody Hv.
  pose proof (request_first_success [] resp Hm Hmax (Hnet _) Hok) as Hreq.
  rewrite (check_response_api_error (mk_loop_state 1 true (Some resp)) _
             resp body v eq_refl Hacc Hbody Hv) in Hreq.
  split.
  - intros s ->. exact Hreq.
  - intros ss ->. rewrite Hreq. unfold bind. now rewrite str_items_map.
Qed.

(** C8. Whenever [request] returns normally, the last transport call
    returned a response with status 200 or 201, and the value returned is
    that response's decoded body. *)
Theorem request_returns_only_200_201 (tr tr' : trace) (v : json) :
  1 <= max_retries ->
  request py_str net self endpoint params headers data method max_retries tr
  = (Return v, tr') ->
  exists resp,
    last_result net tr' = Some (Responds resp)
    /\ (status_code resp = 200 \/ status_code resp = 201)
    /\ v = decoded resp.
Proof.
  intros _ Hreq.
  destruct (method_allowed method) eqn:Hm;
    [| rewrite (request_not_allowed tr Hm) in Hreq; discriminate].
  rewrite (request_allowed tr Hm) in Hreq. unfold bind in Hreq.
  destruct (loop _ _ tr) as [[st | e |] tr1] eqn:Hloop; try discriminate.
  destruct (check_response_Return st tr1 tr' v Hreq)
    as [resp [Hr [Hacc [Hv ->]]]].
  destruct (loop_exit_state _ _ _ _ Hm Hloop)
    as [Hnone | [resp' [Hr' [Hok Hlast]]]]; [congruence |].
  rewrite Hr in Hr'. injection Hr' as <-.
  exists resp. repeat split; auto using status_200_or_201.
Qed.

(** C10, amended. With an allowed method and [max_retries <= 0] the loop
    body never runs, [r] is never bound and [request] raises
    [UnboundLocalError] without any transport call. *)
Theorem request_no_attempts_unbound (tr : trace) :
  method_allowed method = true ->
  max_retries <= 0 ->
  request py_str net self endpoint params headers data method max_retries tr
  = (Raise (UnboundLocalError "r"), tr).
Proof.
  intros Hm Hmax. rewrite (request_allowed tr Hm).
  replace (Z.to_nat max_retries) with 0%nat by lia.
  simpl. replace (0 <? max_retries) with false
    by (symmetry; apply Z.ltb_ge; lia).
  reflexivity.
Qed.

(** *** What reaches the transport *)

Lemma step_extends (st : loop_state) (tr tr' : trace)
    (o : outcome loop_state) :
  method_allowed method = true ->
  successful st = false ->
  step st tr = (o, tr') ->
  exists ext, tr' = tr ++ ext /\ requests_made ext = [EvRequest the_call].
Proof.
  intros Hm Hs Hstep.
  destruct (net (List.length (requests_made tr)) the_call)
    as [resp | e | e] eqn:Hnet.
  - destruct (status_successful (status_code resp)) eqn:Hok.
    + rewrite (step_success st tr resp Hm Hnet Hok) in Hstep.
      injection Hstep as _ <-. now eexists.
    + rewrite (step_bad_status st tr resp Hm Hs Hnet Hok) in Hstep.
      destruct (attempt st + 1 <? max_retries);
        [destruct (attempt st + 1 <? FLOAT_OVERFLOW_EXP) |];
        injection Hstep as _ <-; now eexists.
  - rewrite (step_fails st tr e Hm Hs Hnet) in Hstep.
    destruct (attempt st + 1 <? max_retries);
      [destruct (attempt st + 1 <? FLOAT_OVERFLOW_EXP) |];
      injection Hstep as _ <-; now eexists.
  - rewrite (step_crashes st tr e Hm Hnet) in Hstep.
    injection Hstep as _ <-. now eexists.
Qed.

Lemma loop_extends (fuel : nat) :
  method_allowed method = true ->
  forall (st : loop_state) (tr tr' : trace) (o : outcome loop_state),
    loop fuel st tr = (o, tr') ->
    exists ext,
      tr' = tr ++ ext
      /\ Forall (eq (EvRequest the_call)) (requests_made ext).
Proof.
  intros Hm.
  induction fuel as [| fuel IH]; intros st tr tr' o Hrun;
    destruct ((attempt st <? max_retries) && negb (successful st)) eqn:Hc;
    try (rewrite (loop_done _ st Hc) in Hrun; injection Hrun as _ <-;
         exists []; split; [now rewrite app_nil_r | constructor]).
  - simpl in Hrun. rewrite Hc in Hrun. injection Hrun as _ <-.
    exists []; split; [now rewrite app_nil_r | constructor].
  - rewrite (loop_again _ st Hc) in Hrun. unfold bind in Hrun.
    apply andb_true_iff in Hc. destruct Hc as [_ Hs].
    apply negb_true_iff in Hs.
    destruct (step st tr) as [o1 tr1] eqn:Hstep.
    destruct (step_extends st tr tr1 o1 Hm Hs Hstep) as [ext1 [-> Hreq1]].
    destruct o1 as [st1 | e |].
    + destruct (IH st1 _ _ _ Hrun) as [ext2 [-> Hreq2]].
      exists (ext1 ++ ext2). split; [now rewrite app_assoc |].
      rewrite requests_made_app, Hreq1. now constructor.
    + injection Hrun as _ <-. exists ext1. split; [reflexivity |].
      rewrite Hreq1. now repeat constructor.
    + injection Hrun as _ <-. exists ext1. split; [reflexivity |].
      rewrite Hreq1. now repeat constructor.
Qed.

(** Every transport call of one [request] has the same arguments, and its
    headers are the caller's [headers] argument itself. *)
Lemma request_calls (tr : trace) :
  let out :=
    request py_str net self endpoint params headers data method max_retries tr
  in
  exists ext,
    snd out = tr ++ ext
    /\ Forall (eq (EvRequest the_call)) (requests_made ext)
    /\ call_headers the_call = headers.
Proof.
  intros out. subst out.
  destruct (method_allowed method) eqn:Hm.
  - rewrite (request_allowed tr Hm). unfold bind.
    destruct (loop _ _ tr) as [o tr1] eqn:Hloop.
    destruct (loop_extends _ Hm _ _ _ _ Hloop) as [ext [-> Hreq]].
    exists ext. split; [| now split].
    destruct o as [st | e |]; try reflexivity.
    apply pure_check_response.
  - rewrite (request_not_allowed tr Hm). exists []. simpl.
    split; [now rewrite app_nil_r | split; [constructor | reflexivity]].
Qed.

End RequestFacts.

(** C1, amended. When every response has status 400 and the body
    [{"errors": {"error": "bad request"}}], no attempt ends the loop:
    [request], with its default of three attempts, calls the transport
    three times and raises the retry-exhaustion [TradierApiError]; the
    message of the body is not what it raises. *)
Theorem request_status_400_exhausts
    (py_str : json -> string) (net : transport) (self : TradierApiBase)
    (endpoint : string) (params headers data : option (dict string))
    (method : string) (resp : response) :
  method_allowed method = true ->
  (forall n c, net n c = Responds resp) ->
  status_code resp = 400 ->
  json_body resp = Some body_bad_request ->
  let out := request py_str net self endpoint params headers data method 3 [] in
  fst out = Raise (RequestFailed method 3)
  /\ List.length (requests_made (snd out)) = 3%nat
  /\ fst out <> Raise (ApiError "bad request")
  /\ fst out <> Raise (TradierApiError "bad request").
Proof.
  intros Hm Hnet Hst _ out.
  assert (Hall : forall n c, unsuccessful (net n c) = true)
    by (intros n c; rewrite Hnet; simpl; now rewrite Hst).
  assert (Hmax : 1 <= 3 <= FLOAT_OVERFLOW_EXP)
    by (unfold FLOAT_OVERFLOW_EXP; lia).
  destruct (request_exhausted py_str net self endpoint params headers data
              method 3 Hm Hmax Hall) as [tr' [Hreq Htr]].
  subst out. rewrite Hreq. simpl.
  split; [reflexivity |]. split; [| split].
  - rewrite <- requests_made_calls_and_sleeps, Htr, requests_made_schedule.
    now rewrite repeat_length.
  - destruct (method_allowed_cases _ Hm) as [-> | [-> | ->]]; discriminate.
  - discriminate.
Qed.

(** C3. When every attempt raises a transport exception, [request] with
    [max_retries = 3] calls the transport exactly three times, sleeps
    exactly twice, after the first and the second attempt, for
    [1.5 * 2 ** 1 = 3] and [1.5 * 2 ** 2 = 6] seconds, and then raises the
    retry-exhaustion [TradierApiError]; nothing is returned. *)
Theorem request_always_failing_transport
    (py_str : json -> string) (net : transport) (self : TradierApiBase)
    (endpoint : string) (params headers data : option (dict string))
    (method : string) :
  method_allowed method = true ->
  (forall n c, exists e, net n c = Fails e) ->
  let c := call_for self endpoint params headers data method in
  let out := request py_str net self endpoint params headers data method 3 [] in
  fst out = Raise (RequestFailed method 3)
  /\ calls_and_sleeps (snd out)
     = [EvRequest c; EvSleep (backoff_seconds 1);
        EvRequest c; EvSleep (backoff_seconds 2);
        EvRequest c]
  /\ List.length (requests_made (snd out)) = 3%nat
  /\ sleeps_made (snd out) = [backoff_seconds 1; backoff_seconds 2]
  /\ (backoff_seconds 1 == 3)%Q
  /\ (backoff_seconds 2 == 6)%Q.
Proof.
  intros Hm Hnet c out.
  assert (Hall : forall n c, unsuccessful (net n c) = true)
    by (intros n c'; destruct (Hnet n c') as [e ->]; reflexivity).
  assert (Hmax : 1 <= 3 <= FLOAT_OVERFLOW_EXP)
    by (unfold FLOAT_OVERFLOW_EXP; lia).
  destruct (request_exhausted py_str net self endpoint params headers data
              method 3 Hm Hmax Hall) as [tr' [Hreq Htr]].
  change (Z.to_nat 3 - 1)%nat with 2%nat in Htr. simpl in Htr.
  subst out. rewrite Hreq. simpl fst. simpl snd.
  split; [reflexivity |]. split; [exact Htr |].
  rewrite <- (requests_made_calls_and_sleeps tr').
  rewrite <- (sleeps_made_calls_and_sleeps tr'). rewrite Htr.
  repeat split.
Qed.

(** ** The properties at sample inputs *)

Lemma request_invalid_method_witness :
  method_allowed "put" = false
  /\ request py_str_stub (always (Responds resp_200)) demo "v1/markets/quotes"
       None None None "put" 3 []
     = (Raise (InvalidArgument "put"), []).
Proof.
  split; [reflexivity |].
  apply (request_invalid_method py_str_stub (always (Responds resp_200)) demo
           "v1/markets/quotes" None None None "put" 3 []).
  reflexivity.
Defined.

Lemma request_ok_first_attempt_witness :
  method_allowed "get" = true
  /\ 1 <= 3
  /\ (forall c, always (Responds resp_200) 0%nat c = Responds resp_200)
  /\ status_code resp_200 = 200
  /\ json_body resp_200 = Some body_foo_bar
  /\ request py_str_stub (always (Responds resp_200)) demo "v1/markets/quotes"
       None None None "get" 3 []
     = (Return body_foo_bar,
        [EvRequest (call_for demo "v1/markets/quotes" None None None "get")]).
Proof.
  repeat (split; [first [reflexivity | lia] |]).
  apply (request_ok_first_attempt py_str_stub (always (Responds resp_200)) demo
           "v1/markets/quotes" None None None "get" 3 resp_200);
    first [reflexivity | lia].
Defined.

Lemma request_api_error_witness :
  method_allowed "get" = true
  /\ 1 <= 3
  /\ (forall c,
        always (Responds resp_200_errors) 0%nat c = Responds resp_200_errors)
  /\ status_successful (status_code resp_200_errors) = true
  /\ status_accepted (status_code resp_200_errors) = true
  /\ json_body resp_200_errors = Some body_errors_a_b
  /\ errors_error body_errors_a_b = Some (JList [JStr "a"; JStr "b"])
  /\ request py_str_stub (always (Responds resp_200_errors)) demo
       "v1/accounts/VA000001/orders" None None None "get" 3 []
     = (Raise (TradierApiError "Error: a | b"),
        [EvRequest
           (call_for demo "v1/accounts/VA000001/orders" None None None "get")]).
Proof.
  repeat (split; [first [reflexivity | lia] |]).
  apply (proj2
           (request_api_error py_str_stub (always (Responds resp_200_errors))
              demo "v1/accounts/VA000001/orders" None None None "get" 3
              resp_200_errors body_errors_a_b (JList [JStr "a"; JStr "b"])
              eq_refl ltac:(lia) (fun _ => eq_refl) eq_refl eq_refl eq_refl
              eq_refl)
           ["a"; "b"] eq_refl).
Defined.

Lemma request_returns_only_200_201_witness :
  1 <= 3
  /\ request py_str_stub (always (Responds resp_200)) demo "v1/markets/quotes"
       None None None "get" 3 []
     = (Return body_foo_bar,
        [EvRequest (call_for demo "v1/markets/quotes" None None None "get")])
  /\ exists resp,
       last_result (always (Responds resp_200))
         [EvRequest (call_for demo "v1/markets/quotes" None None None "get")]
       = Some (Responds resp)
       /\ (status_code resp = 200 \/ status_code resp = 201)
       /\ body_foo_bar = decoded resp.
Proof.
  split; [lia |]. split; [reflexivity |].
  apply (request_returns_only_200_201 py_str_stub (always (Responds resp_200))
           demo "v1/markets/quotes" None None None "get" 3 []);
    [lia | reflexivity].
Defined.

Lemma request_no_attempts_unbound_witness :
  method_allowed "get" = true
  /\ 0 <= 0
  /\ request py_str_stub (always (Responds resp_200)) demo "v1/markets/quotes"
       None None None "get" 0 []
     = (Raise (UnboundLocalError "r"), []).
Proof.
  split; [reflexivity |]. split; [lia |].
  apply (request_no_attempts_unbound py_str_stub (always (Responds resp_200))
           demo "v1/markets/quotes" None None None "get" 0 []);
    [reflexivity | lia].
Defined.

Lemma request_status_400_exhausts_witness :
  method_allowed "get" = true
  /\ (forall n c, always (Responds resp_400) n c = Responds resp_400)
  /\ status_code resp_400 = 400
  /\ json_body resp_400 = Some body_bad_request
  /\ fst (request py_str_stub (always (Responds resp_400)) demo
            "v1/accounts/VA000001/orders" None None None "get" 3 [])
     = Raise (RequestFailed "get" 3).
Proof.
  repeat (split; [first [reflexivity | lia] |]).
  apply (request_status_400_exhausts py_str_stub (always (Responds resp_400))
           demo "v1/accounts/VA000001/orders" None None None "get" resp_400);
    first [reflexivity | lia].
Defined.

Lemma request_always_failing_transport_witness :
  method_allowed "get" = true
  /\ (forall n c, exists e, always (Fails "connection refused") n c = Fails e)
  /\ fst (request py_str_stub (always (Fails "connection refused")) demo
            "v1/markets/quotes" None None None "get" 3 [])
     = Raise (TradierApiError "Error: get request failed after 3 attempts.").
Proof.
  split; [reflexivity |]. split; [intros n c; now exists "connection refused" |].
  apply (request_always_failing_transport py_str_stub
           (always (Fails "connection refused")) demo "v1/markets/quotes"
           None None None "get");
    [reflexivity | intros n c; now exists "connection refused"].
Defined.

(** C1, as stated, fails: a stub answering 400 with the body
    [{"errors": {"error": "bad request"}}] makes [request] raise the
    retry-exhaustion error after three attempts, not an error whose
    message is "bad request". *)
Lemma request_status_400_not_bad_request :
  let out :=
    request py_str_stub (always (Responds resp_400)) demo
      "v1/accounts/VA000001/orders" None None None "get" 3 [] in
  status_code resp_400 = 400
  /\ json_body resp_400 = Some body_bad_request
  /\ fst out
     = Raise (TradierApiError "Error: get request failed after 3 attempts.")
  /\ List.length (requests_made (snd out)) = 3%nat
  /\ fst out <> Raise (ApiError "bad request")
  /\ fst out <> Raise (TradierApiError "bad request").
Proof. repeat split; discriminate. Qed.

(** C10, as stated, fails: with [max_retries = 0] and a method that is not
    allowed, the method check raises first. *)
Lemma request_no_attempts_invalid_method :
  let out :=
    request py_str_stub (always (Responds resp_200)) demo "v1/markets/quotes"
      None None None "put" 0 [] in
  0 <= 0
  /\ fst out = Raise (InvalidArgument "put")
  /\ fst out <> Raise (UnboundLocalError "r").
Proof. repeat split; [lia | discriminate]. Qed.

(** C2 on the code: a stub answering 502 with a body that is not JSON
    makes [request] retry and raise the retry-exhaustion error after three
    attempts and two sleeps; the empty mapping is not returned. *)
Theorem request_status_502_exhausts :
  let out :=
    request py_str_stub (always (Responds resp_502)) demo "v1/markets/quotes"
      None None None "get" 3 [] in
  status_accepted (status_code resp_502) = true
  /\ json_body resp_502 = None
  /\ fst out = Raise (RequestFailed "get" 3)
  /\ List.length (requests_made (snd out)) = 3%nat
  /\ sleeps_made (snd out) = [backoff_seconds 1; backoff_seconds 2]
  /\ fst out <> Return (JDict []).
Proof. repeat split; discriminate. Qed.

(** C5 on the code: a stub answering 502, a status the check after the
    loop accepts, with the body [{"errors": {"error": "bad request"}}]
    never reaches that check: [request] retries and raises the
    retry-exhaustion error after three attempts, not the error of the
    body. *)
Theorem request_status_502_error_body_exhausts :
  let out :=
    request py_str_stub (always (Responds resp_502_errors)) demo
      "v1/accounts/VA000001/orders" None None None "get" 3 [] in
  status_accepted (status_code resp_502_errors) = true
  /\ errors_error (decoded resp_502_errors) = Some (JStr "bad request")
  /\ fst out = Raise (RequestFailed "get" 3)
  /\ List.length (requests_made (snd out)) = 3%nat
  /\ fst out <> Raise (ApiError "bad request")
  /\ fst out <> Raise (TradierApiError "bad request").
Proof. repeat split; discriminate. Qed.

(** C7 on the code: the headers handed to the transport are the caller's
    argument as it is; with no headers the transport receives [None], and
    with extra headers only those, never the instance's defaults. *)
Theorem request_forwards_headers_unmerged :
  let extra := Some [("X-Request-Id", "42")] in
  let out_none :=
    request py_str_stub (always (Responds resp_200)) demo "v1/user/profile"
      None None None "get" 3 [] in
  let out_extra :=
    request py_str_stub (always (Responds resp_200)) demo "v1/user/profile"
      None extra None "get" 3 [] in
  REQUESTS_HEADERS demo
  = [("Authorization", "Bearer token"); ("Accept", "application/json")]
  /\ map (fun e => match e with
                   | EvRequest c => call_headers c
                   | _ => None
                   end) (snd out_none) = [None]
  /\ merged_headers demo None = REQUESTS_HEADERS demo
  /\ map (fun e => match e with
                   | EvRequest c => call_headers c
                   | _ => None
                   end) (snd out_extra) = [extra]
  /\ merged_headers demo extra
     = [("Authorization", "Bearer token"); ("Accept", "application/json");
        ("X-Request-Id", "42")].
Proof. repeat split. Qed.

(** ** [date2str] *)

Lemma holds_from_spec (f : Z -> bool) (n : nat) :
  forall lo, holds_from f lo n = true ->
  forall x, lo <= x < lo + Z.of_nat n -> f x = true.
Proof.
  induction n as [| n IH]; intros lo H x Hx; [lia |].
  simpl in H. apply andb_true_iff in H. destruct H as [Hlo Hrest].
  destruct (Z.eq_dec x lo) as [-> | Hne]; [exact Hlo |].
  apply (IH (lo + 1) Hrest). lia.
Qed.

Lemma zfill_2_digits (n : Z) :
  0 <= n <= 99 -> zfill 2 (str_of_int n) = digits2 n.
Proof.
  intros Hn. apply String.eqb_eq.
  apply (holds_from_spec
           (fun x => String.eqb (zfill 2 (str_of_int x)) (digits2 x))
           (Z.to_nat 100) 0); [vm_compute; reflexivity | lia].
Qed.

Lemma str_of_int_4_digits (n : Z) :
  1000 <= n <= 9999 -> str_of_int n = digits4 n.
Proof.
  intros Hn. apply String.eqb_eq.
  apply (holds_from_spec
           (fun x => String.eqb (str_of_int x) (digits4 x))
           (Z.to_nat 9000) 1000); [vm_compute; reflexivity | lia].
Qed.

Lemma digit_char_spec (k : Z) :
  0 <= k <= 9 ->
  is_digit (digit_char k) = true
  /\ Z.of_nat (nat_of_ascii (digit_char k)) - 48 = k.
Proof.
  intros Hk.
  assert (H : digit_char_ok k = true)
    by (apply (holds_from_spec digit_char_ok (Z.to_nat 10) 0);
        [vm_compute; reflexivity | lia]).
  unfold digit_char_ok in H. apply andb_true_iff in H. destruct H as [H1 H2].
  apply Z.eqb_eq in H2. now split.
Qed.

Ltac name_digit k c :=
  let Hd := fresh "Hd" in
  let Hv := fresh "Hv" in
  destruct (digit_char_spec k) as [Hd Hv];
  [Z.div_mod_to_equations; lia |];
  generalize dependent (digit_char k); intros c Hd Hv.

Lemma digits4_digits2_iso_date (y m d : Z) :
  0 <= y <= 9999 -> 0 <= m <= 99 -> 0 <= d <= 99 ->
  is_iso_date (digits4 y ++ "-" ++ digits2 m ++ "-" ++ digits2 d)%string y m d.
Proof.
  intros Hy Hm Hd. unfold is_iso_date, digits4, digits2.
  name_digit (y / 1000) y3. name_digit (y / 100 mod 10) y2.
  name_digit (y / 10 mod 10) y1. name_digit (y mod 10) y0.
  name_digit (m / 10) m1. name_digit (m mod 10) m0.
  name_digit (d / 10) d1. name_digit (d mod 10) d0.
  cbn -[Z.mul Z.add Z.sub Z.of_nat nat_of_ascii].
  repeat match goal with H : is_digit _ = true |- _ => rewrite H; clear H end.
  repeat match goal with H : Z.of_nat _ - 48 = _ |- _ => rewrite H; clear H end.
  repeat split; Z.div_mod_to_equations; lia.
Qed.

Lemma digits4_digits2_iso_minute (y m d H M : Z) :
  0 <= y <= 9999 -> 0 <= m <= 99 -> 0 <= d <= 99 ->
  0 <= H <= 99 -> 0 <= M <= 99 ->
  is_iso_minute
    (digits4 y ++ "-" ++ digits2 m ++ "-" ++ digits2 d
     ++ " " ++ digits2 H ++ ":" ++ digits2 M)%string y m d H M.
Proof.
  intros Hy Hm Hd HH HM. unfold is_iso_minute, digits4, digits2.
  name_digit (y / 1000) y3. name_digit (y / 100 mod 10) y2.
  name_digit (y / 10 mod 10) y1. name_digit (y mod 10) y0.
  name_digit (m / 10) m1. name_digit (m mod 10) m0.
  name_digit (d / 10) d1. name_digit (d mod 10) d0.
  name_digit (H / 10) h1. name_digit (H mod 10) h0.
  name_digit (M / 10) n1. name_digit (M mod 10) n0.
  cbn -[Z.mul Z.add Z.sub Z.of_nat nat_of_ascii].
  repeat match goal with H : is_digit _ = true |- _ => rewrite H; clear H end.
  repeat match goal with H : Z.of_nat _ - 48 = _ |- _ => rewrite H; clear H end.
  repeat split; Z.div_mod_to_equations; lia.
Qed.

Lemma append_empty_r (s : string) : (s ++ "")%string = s.
Proof. induction s as [| c s IH]; simpl; [| rewrite IH]; reflexivity. Qed.

Lemma strftime_date (d : datetime) :
  strftime "%Y-%m-%d" d
  = (str_of_int (year (dt_date d)) ++ "-"
     ++ zfill 2 (str_of_int (month (dt_date d))) ++ "-"
     ++ zfill 2 (str_of_int (day (dt_date d))))%string.
Proof.
  cbn [strftime directive Ascii.eqb Bool.eqb].
  now rewrite (append_empty_r (zfill 2 (str_of_int (day (dt_date d))))).
Qed.

Lemma strftime_minute (d : datetime) :
  strftime "%Y-%m-%d %H:%M" d
  = (str_of_int (year (dt_date d)) ++ "-"
     ++ zfill 2 (str_of_int (month (dt_date d))) ++ "-"
     ++ zfill 2 (str_of_int (day (dt_date d))) ++ " "
     ++ zfill 2 (str_of_int (hour d)) ++ ":"
     ++ zfill 2 (str_of_int (minute d)))%string.
Proof.
  cbn [strftime directive Ascii.eqb Bool.eqb].
  now rewrite (append_empty_r (zfill 2 (str_of_int (minute d)))).
Qed.

Lemma datetime_in_range_bounds (d : datetime) :
  datetime_in_range d = true ->
  (1 <= year (dt_date d) <= 9999 /\ 1 <= month (dt_date d) <= 12
   /\ 1 <= day (dt_date d) <= 31)
  /\ 0 <= hour d <= 23 /\ 0 <= minute d <= 59.
Proof.
  unfold datetime_in_range, date_in_range, MINYEAR, MAXYEAR. intros H.
  repeat match goal with
         | H : _ && _ = true |- _ =>
             apply andb_true_iff in H; destruct H
         end.
  lia.
Qed.

(** X20. For dates and datetimes from the year 1000 on, whose year has
    four digits, [date2str] yields the date written as "YYYY-MM-DD", and
    with [include_min] the minute written as "YYYY-MM-DD HH:MM" (midnight
    for a plain date); a string is returned as it is, whatever
    [include_min]. *)
Theorem date2str_formats_from_1000 (d : datetime) :
  datetime_in_range d = true ->
  1000 <= year (dt_date d) ->
  let y := year (dt_date d) in
  let m := month (dt_date d) in
  let dd := day (dt_date d) in
  is_iso_date (date2str (ADate (dt_date d)) false) y m dd
  /\ is_iso_date (date2str (ADateTime d) false) y m dd
  /\ is_iso_minute (date2str (ADate (dt_date d)) true) y m dd 0 0
  /\ is_iso_minute (date2str (ADateTime d) true) y m dd (hour d) (minute d)
  /\ (forall s include_min, date2str (AStr s) include_min = s).
Proof.
  intros Hd Hyear y m dd.
  destruct (datetime_in_range_bounds d Hd) as [[Hy [Hm Hdd]] [HH HM]].
  unfold date2str. simpl negb. cbv iota.
  rewrite !strftime_date, !strftime_minute.
  simpl dt_date. simpl hour. simpl minute. fold y m dd.
  fold y in Hy, Hyear. fold m in Hm. fold dd in Hdd. clearbody y m dd.
  rewrite (str_of_int_4_digits y) by lia.
  rewrite !(zfill_2_digits m) by lia.
  rewrite !(zfill_2_digits dd) by lia.
  rewrite (zfill_2_digits (hour d)), (zfill_2_digits (minute d)) by lia.
  change (zfill 2 (str_of_int 0)) with (digits2 0).
  split; [apply digits4_digits2_iso_date; lia |].
  split; [apply digits4_digits2_iso_date; lia |].
  split; [apply digits4_digits2_iso_minute; lia |].
  split; [apply digits4_digits2_iso_minute; lia |].
  reflexivity.
Qed.

Example date2str_date : date2str (ADate (mk_date 2024 1 5)) false = "2024-01-05".
Proof. reflexivity. Qed.

Example date2str_date_minutes :
  date2str (ADate (mk_date 2024 1 5)) true = "2024-01-05 00:00".
Proof. reflexivity. Qed.

Example date2str_datetime_minutes :
  date2str (ADateTime sample_datetime_2024) true = "2024-01-05 09:30".
Proof. reflexivity. Qed.

Lemma date2str_formats_from_1000_witness :
  datetime_in_range sample_datetime_2024 = true
  /\ 1000 <= year (dt_date sample_datetime_2024)
  /\ is_iso_date (date2str (ADateTime sample_datetime_2024) false) 2024 1 5
  /\ is_iso_minute (date2str (ADateTime sample_datetime_2024) true)
       2024 1 5 9 30.
Proof.
  split; [reflexivity |]. split; [simpl; lia |].
  destruct (date2str_formats_from_1000 sample_datetime_2024 eq_refl
              ltac:(simpl; lia))
    as [_ [Hdate [_ [Hminute _]]]].
  split; [exact Hdate | exact Hminute].
Defined.

(** C9 on the code: for a year below 1000 the year is written without
    leading zeros, so the result is neither "YYYY-MM-DD" nor
    "YYYY-MM-DD HH:MM"; a string argument is returned as it is. *)
Theorem date2str_year_below_1000 :
  datetime_in_range sample_datetime = true
  /\ date2str (ADateTime sample_datetime) false = "987-11-05"
  /\ date2str (ADateTime sample_datetime) true = "987-11-05 07:03"
  /\ date2str (ADate (mk_date 1 1 1)) false = "1-01-01"
  /\ has_shape "YYYY-MM-DD" (date2str (ADateTime sample_datetime) false)
     = false
  /\ has_shape "YYYY-MM-DD HH:MM" (date2str (ADateTime sample_datetime) true)
     = false
  /\ (forall s include_min, date2str (AStr s) include_min = s).
Proof. repeat split. Qed.

(** * Further properties of [request] *)

Lemma failed_attempts_snoc (c : http_call) (k : nat) :
  forall a,
    failed_attempts c a k ++ [EvRequest c] = retry_schedule c a k.
Proof.
  induction k as [| k IH]; intros a; [reflexivity |].
  simpl. now rewrite IH.
Qed.

Section RetrySchedule.

Variable py_str : json -> string.
Variable net : transport.
Variable self : TradierApiBase.

Variables (endpoint : string) (params headers data : option (dict string))
          (method : string) (max_retries : Z).

Local Abbreviation the_call :=
  (call_for self endpoint params headers data method).

Local Abbreviation loop :=
  (retry_loop net self endpoint (or_empty params) headers (or_empty data)
     method max_retries).

Local Abbreviation step :=
  (attempt_once net self endpoint (or_empty params) headers (or_empty data)
     method max_retries).

Hypothesis allowed : method_allowed method = true.

(** An unsuccessful attempt that is not the last one is retried: one call,
    one sleep, and the loop goes on with the next attempt. *)
Lemma step_retried (st : loop_state) (tr : trace) :
  successful st = false ->
  attempt st + 1 < max_retries ->
  attempt st + 1 < FLOAT_OVERFLOW_EXP ->
  unsuccessful (net (List.length (requests_made tr)) the_call) = true ->
  exists st1 tr1,
    step st tr = (Return st1, tr1)
    /\ attempt st1 = attempt st + 1
    /\ successful st1 = false
    /\ calls_and_sleeps tr1
       = calls_and_sleeps tr
         ++ [EvRequest the_call; EvSleep (backoff_seconds (attempt st + 1))]
    /\ requests_made tr1 = requests_made tr ++ [EvRequest the_call].
Proof.
  intros Hs Hlt Hfl Hun. apply Z.ltb_lt in Hlt. apply Z.ltb_lt in Hfl.
  destruct (net (List.length (requests_made tr)) the_call)
    as [resp | e | e] eqn:Hnet; simpl in Hun; try discriminate.
  - apply negb_true_iff in Hun.
    pose proof (step_bad_status net self endpoint params headers data method
                  max_retries st tr resp allowed Hs Hnet Hun) as Hstep.
    rewrite Hlt, Hfl in Hstep. do 2 eexists. split; [exact Hstep |].
    rewrite calls_and_sleeps_app, requests_made_app. now repeat split.
  - pose proof (step_fails net self endpoint params headers data method
                  max_retries st tr e allowed Hs Hnet) as Hstep.
    rewrite Hlt, Hfl in Hstep. do 2 eexists. split; [exact Hstep |].
    rewrite calls_and_sleeps_app, requests_made_app. now repeat split.
Qed.

(** [k] unsuccessful attempts in a row, none of them the last one. *)
Lemma loop_failures (k : nat) :
  forall (fuel : nat) (st : loop_state) (tr : trace),
    successful st = false ->
    attempt st + Z.of_nat k < max_retries ->
    attempt st + Z.of_nat k < FLOAT_OVERFLOW_EXP ->
    (forall n, (n < k)%nat ->
       unsuccessful (net (List.length (requests_made tr) + n)%nat the_call)
       = true) ->
    exists st1 tr1,
      loop (k + fuel) st tr = loop fuel st1 tr1
      /\ attempt st1 = attempt st + Z.of_nat k
      /\ successful st1 = false
      /\ calls_and_sleeps tr1
         = calls_and_sleeps tr ++ failed_attempts the_call (attempt st + 1) k
      /\ List.length (requests_made tr1)
         = (List.length (requests_made tr) + k)%nat.
Proof.
  induction k as [| k IH]; intros fuel st tr Hs Hlt Hfl Hun.
  - exists st, tr. simpl. rewrite app_nil_r, Z.add_0_r, Nat.add_0_r.
    now repeat split.
  - destruct (step_retried st tr Hs ltac:(lia) ltac:(lia))
      as [st1 [tr1 [Hstep [Hatt [Hs1 [Hcs Hreq]]]]]].
    { specialize (Hun 0%nat ltac:(lia)). now rewrite Nat.add_0_r in Hun. }
    destruct (IH fuel st1 tr1 Hs1 ltac:(lia) ltac:(lia))
      as [st2 [tr2 [Hrun H2]]].
    { intros n Hn. rewrite Hreq, length_app. simpl.
      replace (List.length (requests_made tr) + 1 + n)%nat
        with (List.length (requests_made tr) + S n)%nat by lia.
      apply Hun. lia. }
    destruct H2 as [Hatt2 [Hs2 [Hcs2 Hreq2]]].
    exists st2, tr2. split; [| repeat split].
    + change (S k + fuel)%nat with (S (k + fuel)).
      rewrite loop_again
        by (rewrite Hs; replace (attempt st <? max_retries) with true;
            [reflexivity | symmetry; apply Z.ltb_lt; lia]).
      now rewrite (bind_Return _ _ _ _ _ Hstep).
    + lia.
    + exact Hs2.
    + rewrite Hcs2, Hcs, Hatt, <- app_assoc. reflexivity.
    + rewrite Hreq2, Hreq, length_app. simpl. lia.
Qed.

(** The attempt that ends the loop, whatever way: one call, no sleep. *)
Lemma step_last (st : loop_state) (tr : trace) :
  successful st = false ->
  unsuccessful (net (List.length (requests_made tr)) the_call)
  && (attempt st + 1 <? max_retries)
  && (attempt st + 1 <? FLOAT_OVERFLOW_EXP) = false ->
  exists o tr1,
    step st tr = (o, tr1)
    /\ calls_and_sleeps tr1 = calls_and_sleeps tr ++ [EvRequest the_call]
    /\ (forall st1, o = Return st1 -> successful st1 = true).
Proof.
  intros Hs Hlast.
  destruct (net (List.length (requests_made tr)) the_call)
    as [resp | e | e] eqn:Hnet; simpl in Hlast.
  - destruct (status_successful (status_code resp)) eqn:Hok.
    + do 2 eexists. split; [| split].
      * exact (step_success net self endpoint params headers data method
                 max_retries st tr resp allowed Hnet Hok).
      * now rewrite calls_and_sleeps_app.
      * now intros st1 [= <-].
    + pose proof (step_bad_status net self endpoint params headers data method
                    max_retries st tr resp allowed Hs Hnet Hok) as Hstep.
      simpl in Hlast.
      destruct (attempt st + 1 <? max_retries);
        [destruct (attempt st + 1 <? FLOAT_OVERFLOW_EXP);
           [discriminate |] |];
        (do 2 eexists; split; [exact Hstep | split];
         [now rewrite calls_and_sleeps_app | discriminate]).
  - pose proof (step_fails net self endpoint params headers data method
                  max_retries st tr e allowed Hs Hnet) as Hstep.
    destruct (attempt st + 1 <? max_retries);
      [destruct (attempt st + 1 <? FLOAT_OVERFLOW_EXP);
         [discriminate |] |];
      (do 2 eexists; split; [exact Hstep | split];
       [now rewrite calls_and_sleeps_app | discriminate]).
  - do 2 eexists. split; [| split].
    + exact (step_crashes net self endpoint params headers data method
               max_retries st tr e allowed Hnet).
    + now rewrite calls_and_sleeps_app.
    + discriminate.
Qed.

(** Whatever the transport does, the calls and sleeps of the loop are
    those of some number of attempts in a row. *)
Lemma loop_schedule (fuel : nat) :
  forall (st : loop_state) (tr tr' : trace) (o : outcome loop_state),
    (Z.to_nat (max_retries - attempt st) <= fuel)%nat ->
    loop fuel st tr = (o, tr') ->
    (tr' = tr /\ (attempt st <? max_retries) && negb (successful st) = false)
    \/ exists k,
         (k < Z.to_nat (max_retries - attempt st))%nat
         /\ calls_and_sleeps tr'
            = calls_and_sleeps tr ++ retry_schedule the_call (attempt st + 1) k.
Proof.
  induction fuel as [| fuel IH]; intros st tr tr' o Hfuel Hrun;
    destruct ((attempt st <? max_retries) && negb (successful st)) eqn:Hc;
    try (rewrite (loop_done _ _ _ _ _ _ _ _ _ st Hc) in Hrun;
         injection Hrun as _ <-; now left);
    apply andb_true_iff in Hc; destruct Hc as [Hlt Hs];
    apply Z.ltb_lt in Hlt; apply negb_true_iff in Hs; [lia |].
  right.
  rewrite loop_again in Hrun
    by (rewrite Hs; apply Z.ltb_lt in Hlt; now rewrite Hlt).
  unfold bind in Hrun.
  destruct (unsuccessful (net (List.length (requests_made tr)) the_call)
            && (attempt st + 1 <? max_retries)
            && (attempt st + 1 <? FLOAT_OVERFLOW_EXP)) eqn:Hretry.
  - apply andb_true_iff in Hretry. destruct Hretry as [Hretry Hfl].
    apply andb_true_iff in Hretry. destruct Hretry as [Hun Hmore].
    apply Z.ltb_lt in Hmore. apply Z.ltb_lt in Hfl.
    destruct (step_retried st tr Hs Hmore Hfl Hun)
      as [st1 [tr1 [Hstep [Hatt [Hs1 [Hcs _]]]]]].
    rewrite Hstep in Hrun.
    destruct (IH st1 tr1 tr' o ltac:(lia) Hrun) as [[_ Hc1] | [k [Hk Hcs']]].
    + rewrite Hs1, Hatt in Hc1. apply Z.ltb_lt in Hmore.
      rewrite Hmore in Hc1. discriminate.
    + exists (S k). split; [lia |].
      rewrite Hcs', Hcs, Hatt, <- app_assoc. reflexivity.
  - destruct (step_last st tr Hs Hretry) as [o1 [tr1 [Hstep [Hcs Hret]]]].
    rewrite Hstep in Hrun. exists 0%nat. split; [lia |].
    destruct o1 as [st1 | e |]; try (injection Hrun as _ <-; exact Hcs).
    rewrite (loop_done _ _ _ _ _ _ _ _ _ st1) in Hrun
      by (rewrite (Hret st1 eq_refl); apply andb_false_r).
    injection Hrun as _ <-; exact Hcs.
Qed.

End RetrySchedule.

Lemma requests_made_attempts_trace (c : http_call) (n : nat) :
  List.length (requests_made (attempts_trace c n)) = n.
Proof.
  destruct n as [| k]; [reflexivity |].
  unfold attempts_trace. now rewrite requests_made_schedule, repeat_length.
Qed.

Lemma sleeps_made_attempts_trace (c : http_call) (n : nat) :
  sleeps_made (attempts_trace c n)
  = map backoff_seconds (attempts_from 1 (n - 1)).
Proof.
  destruct n as [| k]; [reflexivity |].
  unfold attempts_trace. rewrite sleeps_made_schedule.
  now replace (S k - 1)%nat with k by lia.
Qed.

(** The calls and sleeps of one [request], whatever the transport does and
    however the call ends. *)
Lemma request_schedule (py_str : json -> string) (net : transport)
    (self : TradierApiBase) (endpoint : string)
    (params headers data : option (dict string)) (method : string)
    (max_retries : Z) :
  exists n,
    (n <= Z.to_nat max_retries)%nat
    /\ calls_and_sleeps
         (snd (request py_str net self endpoint params headers data method
                 max_retries []))
       = attempts_trace (call_for self endpoint params headers data method) n.
Proof.
  destruct (method_allowed method) eqn:Hm.
  - rewrite (request_allowed py_str net self endpoint params headers data
               method max_retries [] Hm).
    unfold bind.
    destruct (retry_loop net self endpoint (or_empty params) headers
                (or_empty data) method max_retries (Z.to_nat max_retries)
                (mk_loop_state 0 false None) []) as [o tr1] eqn:Hloop.
    assert (Htr : snd (match o with
                       | Return a => check_response py_str a tr1
                       | Raise e => (Raise e, tr1)
                       | OutOfFuel => (OutOfFuel, tr1)
                       end) = tr1)
      by (destruct o; [apply pure_check_response | reflexivity | reflexivity]).
    rewrite Htr.
    assert (Hfuel : (Z.to_nat (max_retries
                               - attempt (mk_loop_state 0 false None))
                     <= Z.to_nat max_retries)%nat) by (simpl; lia).
    destruct (loop_schedule net self endpoint params headers data method
                max_retries Hm _ _ _ _ _ Hfuel Hloop)
      as [[-> _] | [k [Hk Hcs]]].
    + exists 0%nat. split; [lia | reflexivity].
    + exists (S k). simpl in Hk. split; [lia | exact Hcs].
  - rewrite (request_not_allowed py_str net self endpoint params headers data
               method max_retries [] Hm).
    exists 0%nat. split; [lia | reflexivity].
Qed.

(** X1. Whatever the transport does and however the call ends, [request]
    makes at most [max_retries] transport calls, all with the same
    arguments; it sleeps after every call but the last, and the sleep after
    attempt [i] lasts [1.5 * 2 ** i] seconds. *)
Theorem request_attempts_bounded (py_str : json -> string) (net : transport)
    (self : TradierApiBase) (endpoint : string)
    (params headers data : option (dict string)) (method : string)
    (max_retries : Z) :
  let c := call_for self endpoint params headers data method in
  let out :=
    request py_str net self endpoint params headers data method max_retries []
  in
  exists n,
    (n <= Z.to_nat max_retries)%nat
    /\ calls_and_sleeps (snd out) = attempts_trace c n
    /\ requests_made (snd out) = repeat (EvRequest c) n
    /\ sleeps_made (snd out) = map backoff_seconds (attempts_from 1 (n - 1)).
Proof.
  intros c out.
  destruct (request_schedule py_str net self endpoint params headers data
              method max_retries) as [n [Hn Hcs]].
  exists n. split; [exact Hn |]. split; [exact Hcs |].
  subst out c.
  rewrite <- requests_made_calls_and_sleeps, <- sleeps_made_calls_and_sleeps.
  rewrite Hcs. split; [| apply sleeps_made_attempts_trace].
  destruct n as [| k]; [reflexivity | apply requests_made_schedule].
Qed.

(** *** The time spent sleeping *)

Lemma backoff_seconds_succ (a : Z) :
  0 <= a -> (backoff_seconds (a + 1) == 2 * backoff_seconds a)%Q.
Proof.
  intros Ha. unfold backoff_seconds.
  rewrite Z.pow_add_r, Z.pow_1_r, inject_Z_mult by lia. ring.
Qed.

Lemma sum_backoff_seconds (k : nat) :
  forall a,
    0 <= a ->
    (fold_right Qplus 0 (map backoff_seconds (attempts_from a k))
     == backoff_seconds (a + Z.of_nat k) - backoff_seconds a)%Q.
Proof.
  induction k as [| k IH]; intros a Ha.
  - simpl. rewrite Z.add_0_r. ring.
  - simpl attempts_from. simpl map. simpl fold_right.
    rewrite (IH (a + 1)) by lia.
    replace (a + 1 + Z.of_nat k) with (a + Z.of_nat (S k)) by lia.
    rewrite (backoff_seconds_succ a Ha). ring.
Qed.

Lemma backoff_seconds_integer (j : Z) :
  0 <= j -> (backoff_seconds (1 + j) == inject_Z (3 * 2 ^ j))%Q.
Proof.
  intros Hj. unfold backoff_seconds.
  rewrite Z.pow_add_r, Z.pow_1_r by lia.
  rewrite !inject_Z_mult. change (inject_Z 2) with 2%Q.
  change (inject_Z 3) with 3%Q. ring.
Qed.

(** X2. With [max_retries >= 1], one [request] never sleeps longer than
    [3 * 2 ** (max_retries - 1) - 3] seconds in all, whatever the transport
    does: 9 seconds for the default of three attempts. *)
Theorem request_total_sleep_bounded (py_str : json -> string)
    (net : transport) (self : TradierApiBase) (endpoint : string)
    (params headers data : option (dict string)) (method : string)
    (max_retries : Z) :
  1 <= max_retries ->
  (total_sleep
     (snd (request py_str net self endpoint params headers data method
             max_retries []))
   <= inject_Z (3 * 2 ^ (max_retries - 1) - 3))%Q.
Proof.
  intros Hmax.
  destruct (request_schedule py_str net self endpoint params headers data
              method max_retries) as [n [Hn Hcs]].
  unfold total_sleep.
  rewrite <- sleeps_made_calls_and_sleeps, Hcs, sleeps_made_attempts_trace.
  rewrite (sum_backoff_seconds (n - 1) 1) by lia.
  rewrite (backoff_seconds_integer (Z.of_nat (n - 1))) by lia.
  assert (H1 : (backoff_seconds 1 == inject_Z 3)%Q) by reflexivity.
  rewrite H1. unfold Qminus. rewrite <- inject_Z_opp, <- inject_Z_plus.
  rewrite <- Zle_Qle.
  assert (Hpow : 2 ^ Z.of_nat (n - 1) <= 2 ^ (max_retries - 1))
    by (apply Z.pow_le_mono_r; lia).
  lia.
Qed.

Lemma request_total_sleep_bounded_witness :
  1 <= 3
  /\ (total_sleep
        (snd (request py_str_stub (always (Fails "timed out")) demo
                "v1/markets/quotes" None None None "get" 3 []))
      <= inject_Z (3 * 2 ^ (3 - 1) - 3))%Q.
Proof.
  split; [lia |].
  apply (request_total_sleep_bounded py_str_stub (always (Fails "timed out"))
           demo "v1/markets/quotes" None None None "get" 3).
  lia.
Defined.

(** *** The check after the loop depends on the response only *)

Lemma constant_ret {A : Type} (a : A) : constant (ret a).
Proof. now exists (Return a). Qed.

Lemma constant_raise {A : Type} (e : exn) : constant (@raise A e).
Proof. now exists (Raise e). Qed.

Lemma constant_bind {A B : Type} (m : M A) (k : A -> M B) :
  constant m -> (forall a, constant (k a)) -> constant (bind m k).
Proof.
  intros [[a | e |] Hm] Hk.
  - destruct (Hk a) as [o Ho]. exists o. intros tr. unfold bind.
    now rewrite Hm, Ho.
  - exists (Raise e). intros tr. unfold bind. now rewrite Hm.
  - exists OutOfFuel. intros tr. unfold bind. now rewrite Hm.
Qed.

Lemma constant_py_in (key : string) (v : json) : constant (py_in key v).
Proof. destruct v; simpl; auto using constant_ret, constant_raise. Qed.

Lemma constant_py_getitem (v : json) (key : string) :
  constant (py_getitem v key).
Proof.
  destruct v; simpl; auto using constant_raise.
  destruct (dict_get key d); auto using constant_ret, constant_raise.
Qed.

Lemma constant_check_response (py_str : json -> string) (st : loop_state) :
  constant (check_response py_str st).
Proof.
  unfold check_response.
  apply constant_bind;
    [unfold read_local; destruct (r st);
     auto using constant_ret, constant_raise
    | intros resp].
  destruct (negb (status_accepted (status_code resp)));
    [apply constant_raise |].
  apply constant_bind.
  - unfold has_api_error.
    destruct (truthy _); [| apply constant_ret].
    apply constant_bind; [apply constant_py_in |].
    intros [|]; [| apply constant_ret].
    apply constant_bind;
      [apply constant_py_getitem | intros; apply constant_py_in].
  - intros [|]; [| apply constant_ret].
    apply constant_bind; [| intros; apply constant_raise].
    unfold api_error_msg.
    apply constant_bind; [apply constant_py_getitem | intros errors].
    apply constant_bind; [apply constant_py_getitem | intros error].
    destruct error; try apply constant_ret.
    destruct (str_items l); [apply constant_ret | apply constant_raise].
Qed.

Lemma check_response_outcome (py_str : json -> string)
    (st st' : loop_state) (tr tr' : trace) :
  r st = r st' ->
  fst (check_response py_str st tr) = fst (check_response py_str st' tr').
Proof.
  intros Hr.
  assert (Hsame : check_response py_str st = check_response py_str st')
    by (unfold check_response; now rewrite Hr).
  rewrite Hsame.
  destruct (constant_check_response py_str st') as [o Ho].
  now rewrite !Ho.
Qed.

Section RetryOutcome.

Variable py_str : json -> string.
Variable net : transport.
Variable self : TradierApiBase.

Variables (endpoint : string) (params headers data : option (dict string))
          (method : string) (max_retries : Z).

Local Abbreviation the_call :=
  (call_for self endpoint params headers data method).

Hypothesis allowed : method_allowed method = true.

Variable k : nat.
Hypothesis attempts_left : Z.of_nat k < max_retries.
Hypothesis no_overflow : Z.of_nat k < FLOAT_OVERFLOW_EXP.
Hypothesis failures :
  forall n, (n < k)%nat -> unsuccessful (net n the_call) = true.

(** The state of the loop after the [k] unsuccessful attempts. *)
Lemma request_after_failures :
  exists fuel st1 tr1,
    request py_str net self endpoint params headers data method max_retries []
    = (st <- retry_loop net self endpoint (or_empty params) headers
               (or_empty data) method max_retries (S fuel) st1 ;;
       check_response py_str st) tr1
    /\ attempt st1 = Z.of_nat k
    /\ successful st1 = false
    /\ calls_and_sleeps tr1 = failed_attempts the_call 1 k
    /\ List.length (requests_made tr1) = k.
Proof.
  rewrite (request_allowed py_str net self endpoint params headers data method
             max_retries [] allowed).
  replace (Z.to_nat max_retries)
    with (k + S (Z.to_nat max_retries - k - 1))%nat by lia.
  destruct (loop_failures net self endpoint params headers data method
              max_retries allowed k (S (Z.to_nat max_retries - k - 1))
              (mk_loop_state 0 false None) [] eq_refl)
    as [st1 [tr1 [Hrun [Hatt [Hs [Hcs Hlen]]]]]]; simpl;
    [lia | lia | exact failures |].
  exists (Z.to_nat max_retries - k - 1)%nat, st1, tr1.
  split; [unfold bind; now rewrite Hrun | now repeat split].
Qed.

(** After [k] unsuccessful attempts a 2xx response ends the loop. *)
Lemma request_success_after_failures (resp : response) :
  net k the_call = Responds resp ->
  status_successful (status_code resp) = true ->
  exists tr',
    request py_str net self endpoint params headers data method max_retries []
    = check_response py_str
        (mk_loop_state (Z.of_nat k + 1) true (Some resp)) tr'
    /\ calls_and_sleeps tr' = retry_schedule the_call 1 k.
Proof.
  intros Hnet Hok.
  destruct request_after_failures
    as [fuel [st1 [tr1 [Hreq [Hatt [Hs [Hcs Hlen]]]]]]].
  rewrite <- Hlen in Hnet.
  pose proof (loop_first_success net self endpoint params headers data method
                max_retries fuel st1 tr1 resp allowed Hs ltac:(lia) Hnet Hok)
    as Hloop.
  exists (tr1 ++ [EvRequest the_call]). split.
  - rewrite Hreq, (bind_Return _ _ _ _ _ Hloop). now rewrite Hatt.
  - now rewrite calls_and_sleeps_app, Hcs, <- failed_attempts_snoc.
Qed.

(** After [k] unsuccessful attempts an exception that is not a
    [RequestException] leaves the loop at once. *)
Lemma request_crash_after_failures (e : string) :
  net k the_call = Crashes e ->
  exists tr',
    request py_str net self endpoint params headers data method max_retries []
    = (Raise (OtherException e), tr')
    /\ calls_and_sleeps tr' = retry_schedule the_call 1 k.
Proof.
  intros Hnet.
  destruct request_after_failures
    as [fuel [st1 [tr1 [Hreq [Hatt [Hs [Hcs Hlen]]]]]]].
  rewrite <- Hlen in Hnet.
  exists (tr1 ++ [EvRequest the_call]). split.
  - rewrite Hreq.
    rewrite (bind_Raise _ _ tr1 (tr1 ++ [EvRequest the_call])
               (OtherException e)); [reflexivity |].
    rewrite loop_again
      by (rewrite Hs, Hatt; replace (Z.of_nat k <? max_retries) with true;
          [reflexivity | symmetry; apply Z.ltb_lt; lia]).
    apply bind_Raise.
    exact (step_crashes net self endpoint params headers data method
             max_retries st1 tr1 e allowed Hnet).
  - now rewrite calls_and_sleeps_app, Hcs, <- failed_attempts_snoc.
Qed.

(** After [k] unsuccessful attempts one more, with attempts left, whose
    backoff cannot be computed, leaves the loop with [OverflowError]. *)
Lemma request_overflow_after_failures :
  unsuccessful (net k the_call) = true ->
  Z.of_nat k + 1 < max_retries ->
  FLOAT_OVERFLOW_EXP <= Z.of_nat k + 1 ->
  exists tr',
    request py_str net self endpoint params headers data method max_retries []
    = (Raise OverflowError, tr')
    /\ calls_and_sleeps tr' = retry_schedule the_call 1 k.
Proof.
  intros Hun Hmore Hover.
  destruct request_after_failures
    as [fuel [st1 [tr1 [Hreq [Hatt [Hs [Hcs Hlen]]]]]]].
  rewrite <- Hlen in Hun.
  assert (Hstep : exists tr',
             attempt_once net self endpoint (or_empty params) headers
               (or_empty data) method max_retries st1 tr1
             = (Raise OverflowError, tr')
             /\ calls_and_sleeps tr'
                = calls_and_sleeps tr1 ++ [EvRequest the_call]).
  { destruct (net (List.length (requests_made tr1)) the_call)
      as [resp | e | e] eqn:Hnet; simpl in Hun; try discriminate.
    - apply negb_true_iff in Hun.
      pose proof (step_bad_status net self endpoint params headers data method
                    max_retries st1 tr1 resp allowed Hs Hnet Hun) as Hstep.
      replace (attempt st1 + 1 <? max_retries) with true in Hstep
        by (symmetry; apply Z.ltb_lt; lia).
      replace (attempt st1 + 1 <? FLOAT_OVERFLOW_EXP) with false in Hstep
        by (symmetry; apply Z.ltb_ge; lia).
      eexists. split; [exact Hstep | now rewrite calls_and_sleeps_app].
    - pose proof (step_fails net self endpoint params headers data method
                    max_retries st1 tr1 e allowed Hs Hnet) as Hstep.
      replace (attempt st1 + 1 <? max_retries) with true in Hstep
        by (symmetry; apply Z.ltb_lt; lia).
      replace (attempt st1 + 1 <? FLOAT_OVERFLOW_EXP) with false in Hstep
        by (symmetry; apply Z.ltb_ge; lia).
      eexists. split; [exact Hstep | now rewrite calls_and_sleeps_app]. }
  destruct Hstep as [tr' [Hstep Hcs']].
  exists tr'. split.
  - rewrite Hreq.
    rewrite (bind_Raise _ _ tr1 tr' OverflowError); [reflexivity |].
    rewrite loop_again
      by (rewrite Hs, Hatt; replace (Z.of_nat k <? max_retries) with true;
          [reflexivity | symmetry; apply Z.ltb_lt; lia]).
    now apply bind_Raise.
  - now rewrite Hcs', Hcs, <- failed_attempts_snoc.
Qed.

End RetryOutcome.

(** *** What the check after the loop does with a response *)

Section CheckResponse.

Variable py_str : json -> string.
Variables (st : loop_state) (tr : trace) (resp : response).
Hypothesis bound : r st = Some resp.

Lemma check_response_bad_status :
  status_accepted (status_code resp) = false ->
  check_response py_str st tr
  = (Raise (ApiStatusError (status_code resp) (text resp)), tr).
Proof.
  intros Hacc. unfold check_response. rewrite bound.
  unfold read_local, bind, ret. now rewrite Hacc.
Qed.

Lemma check_response_accepted :
  status_accepted (status_code resp) = true ->
  check_response py_str st tr
  = (has_error <- has_api_error (decoded resp) ;;
     if has_error then
       msg <- api_error_msg py_str (decoded resp) ;;
       raise (TradierApiError (msg_api_error msg))
     else ret (decoded resp)) tr.
Proof.
  intros Hacc. unfold check_response. rewrite bound.
  unfold read_local, bind at 1, ret at 1. now rewrite Hacc.
Qed.

Lemma check_response_falsy :
  status_accepted (status_code resp) = true ->
  truthy (decoded resp) = false ->
  check_response py_str st tr = (Return (decoded resp), tr).
Proof.
  intros Hacc Hf. rewrite (check_response_accepted Hacc).
  unfold has_api_error. now rewrite Hf.
Qed.

Lemma check_response_without_error (d : dict json) :
  status_accepted (status_code resp) = true ->
  decoded resp = JDict d ->
  dict_get "errors" d = None
  \/ (exists e,
        dict_get "errors" d = Some (JDict e) /\ dict_get "error" e = None) ->
  check_response py_str st tr = (Return (JDict d), tr).
Proof.
  intros Hacc Hd Hno. rewrite (check_response_accepted Hacc), Hd.
  unfold has_api_error, bind, py_in, py_getitem, ret, dict_mem.
  destruct (truthy (JDict d)); [| reflexivity].
  destruct Hno as [Hno | [e [He Hno]]].
  - now rewrite Hno.
  - now rewrite He, Hno.
Qed.

Lemma check_response_errors_not_mapping (d : dict json) (v : json) :
  status_accepted (status_code resp) = true ->
  decoded resp = JDict d ->
  dict_get "errors" d = Some v ->
  match v with
  | JNull | JBool _ | JNum _ => True
  | JStr s => str_contains "error" s = true
  | JList l => existsb (is_str "error") l = true
  | JDict _ => False
  end ->
  check_response py_str st tr = (Raise TypeError, tr).
Proof.
  intros Hacc Hd Hv Hkind. rewrite (check_response_accepted Hacc), Hd.
  assert (Ht : truthy (JDict d) = true)
    by (destruct d; [discriminate | reflexivity]).
  unfold has_api_error. rewrite Ht.
  unfold bind, py_in, py_getitem, ret, dict_mem, api_error_msg, bind,
    py_getitem, raise.
  rewrite Hv.
  destruct v as [| b | q | s | l | e]; try reflexivity; try contradiction;
    now rewrite Hkind.
Qed.

End CheckResponse.

Lemma flaky_succeeds_at (k : nat) (resp : response) (c : http_call) :
  status_successful (status_code resp) = true ->
  succeeds_at (flaky k (Responds resp)) c k resp.
Proof.
  intros Hok. unfold succeeds_at, flaky. split; [| split; [| exact Hok]].
  - intros n Hn. apply Nat.ltb_lt in Hn. now rewrite Hn.
  - now rewrite Nat.ltb_irrefl.
Qed.

Lemma flaky_crashes_at (k : nat) (e : string) (c : http_call) :
  crashes_at (flaky k (Crashes e)) c k e.
Proof.
  unfold crashes_at, flaky. split.
  - intros n Hn. apply Nat.ltb_lt in Hn. now rewrite Hn.
  - now rewrite Nat.ltb_irrefl.
Qed.

(** ** A response that ends the loop, on whichever attempt *)

Section AfterRetries.

Variable py_str : json -> string.
Variable net : transport.
Variable self : TradierApiBase.

Variables (endpoint : string) (params headers data : option (dict string))
          (method : string) (max_retries : Z).

Local Abbreviation the_call :=
  (call_for self endpoint params headers data method).

Local Abbreviation out :=
  (request py_str net self endpoint params headers data method max_retries []).

Variables (k : nat) (resp : response).

Hypothesis allowed : method_allowed method = true.
Hypothesis attempts_left : Z.of_nat k < max_retries.
Hypothesis no_overflow : Z.of_nat k < FLOAT_OVERFLOW_EXP.
Hypothesis answered : succeeds_at net the_call k resp.

(** The outcome is that of the check after the loop on [resp]; the
    transport was called [k + 1] times. *)
Lemma request_checks_response :
  fst out = fst (check_response py_str (mk_loop_state 1 true (Some resp)) [])
  /\ calls_and_sleeps (snd out) = retry_schedule the_call 1 k
  /\ requests_made (snd out) = repeat (EvRequest the_call) (S k).
Proof.
  destruct answered as [Hfail [Hnet Hok]].
  destruct (request_success_after_failures py_str net self endpoint params
              headers data method max_retries allowed k attempts_left
              no_overflow Hfail resp Hnet Hok) as [tr' [Hreq Hcs]].
  rewrite Hreq.
  pose proof (pure_check_response py_str
                (mk_loop_state (Z.of_nat k + 1) true (Some resp)) tr') as Hp.
  rewrite Hp. split; [now apply check_response_outcome |].
  split; [exact Hcs |].
  now rewrite <- requests_made_calls_and_sleeps, Hcs, requests_made_schedule.
Qed.







End AfterRetries.


(** ** The ways [request] fails *)

Lemma has_api_error_outcome (v : json) (tr : trace) :
  has_api_error v tr = (Return false, tr)
  \/ has_api_error v tr = (Raise TypeError, tr)
  \/ (has_api_error v tr = (Return true, tr)
      /\ exists d ev,
           v = JDict d /\ dict_get "errors" d = Some ev
           /\ match ev with
              | JDict e => dict_mem "error" e = true
              | JList _ | JStr _ => True
              | _ => False
              end).
Proof.
  unfold has_api_error. destruct (truthy v); [| now left].
  destruct v as [| b | q | s | l | d]; simpl; unfold bind, ret, raise;
    try (now right; left).
  - destruct (str_contains "errors" s); [now right; left | now left].
  - destruct (existsb (is_str "errors") l); [now right; left | now left].
  - unfold dict_mem.
    destruct (dict_get "errors" d) as [ev |] eqn:Hd; [| now left].
    destruct ev as [| b | q | s | l | e]; simpl; unfold ret, raise;
      try (now right; left).
    + destruct (str_contains "error" s) eqn:Hs; [| now left].
      right; right. split; [reflexivity |]. now exists d, (JStr s).
    + destruct (existsb (is_str "error") l) eqn:Hl; [| now left].
      right; right. split; [reflexivity |]. now exists d, (JList l).
    + destruct (dict_mem "error" e) eqn:He; [| now left].
      right; right. split; [reflexivity |]. now exists d, (JDict e).
Qed.

Lemma api_error_msg_outcome (py_str : json -> string) (d : dict json)
    (ev : json) (tr : trace) :
  dict_get "errors" d = Some ev ->
  match ev with
  | JDict e => dict_mem "error" e = true
  | JList _ | JStr _ => True
  | _ => False
  end ->
  (exists msg, api_error_msg py_str (JDict d) tr = (Return msg, tr))
  \/ api_error_msg py_str (JDict d) tr = (Raise TypeError, tr).
Proof.
  intros Hd Hev. unfold api_error_msg, bind, py_getitem, ret, raise.
  rewrite Hd.
  destruct ev as [| b | q | s | l | e]; try contradiction;
    try (now right).
  unfold dict_mem in Hev.
  destruct (dict_get "error" e) as [x |]; [| discriminate].
  destruct x as [| b | q | s | l | e']; try (left; now eexists).
  destruct (str_items l); [left; now eexists | now right].
Qed.

(** The check after the loop raises only [UnboundLocalError], when no
    response was bound, [TradierApiError] or [TypeError]. *)
Lemma check_response_raises (py_str : json -> string) (st : loop_state)
    (tr tr' : trace) (e : exn) :
  check_response py_str st tr = (Raise e, tr') ->
  (r st = None /\ e = UnboundLocalError "r")
  \/ (exists msg, e = TradierApiError msg)
  \/ e = TypeError.
Proof.
  unfold check_response, read_local.
  destruct (r st) as [resp |]; [| intros [= <- _]; now left].
  unfold bind at 1, ret at 1.
  destruct (negb (status_accepted (status_code resp)));
    [intros [= <- _]; right; left; now eexists |].
  fold (decoded resp). unfold bind at 1.
  destruct (has_api_error_outcome (decoded resp) tr)
    as [H | [H | [H [d [ev [Hd [Hev Hkind]]]]]]]; rewrite H.
  - discriminate.
  - intros [= <- _]. now right; right.
  - rewrite Hd. unfold bind.
    destruct (api_error_msg_outcome py_str d ev tr Hev Hkind)
      as [[msg Hmsg] | Hmsg]; rewrite Hmsg.
    + intros [= <- _]. right; left. now eexists.
    + intros [= <- _]. now right; right.
Qed.

Section Failures.

Variable py_str : json -> string.
Variable net : transport.
Variable self : TradierApiBase.

Variables (endpoint : string) (params headers data : option (dict string))
          (method : string) (max_retries : Z).

Local Abbreviation the_call :=
  (call_for self endpoint params headers data method).

Local Abbreviation loop :=
  (retry_loop net self endpoint (or_empty params) headers (or_empty data)
     method max_retries).

Local Abbreviation step :=
  (attempt_once net self endpoint (or_empty params) headers (or_empty data)
     method max_retries).

Hypothesis allowed : method_allowed method = true.

Lemma step_raises (st : loop_state) (tr tr' : trace) (e : exn) :
  successful st = false ->
  step st tr = (Raise e, tr') ->
  e = RequestFailed method max_retries
  \/ (exists n x, net n the_call = Crashes x /\ e = OtherException x)
  \/ (FLOAT_OVERFLOW_EXP < max_retries /\ e = OverflowError).
Proof.
  intros Hs Hstep.
  destruct (net (List.length (requests_made tr)) the_call)
    as [resp | x | x] eqn:Hnet.
  - destruct (status_successful (status_code resp)) eqn:Hok.
    + rewrite (step_success net self endpoint params headers data method
                 max_retries st tr resp allowed Hnet Hok) in Hstep.
      discriminate.
    + rewrite (step_bad_status net self endpoint params headers data method
                 max_retries st tr resp allowed Hs Hnet Hok) in Hstep.
      destruct (attempt st + 1 <? max_retries) eqn:Hlt;
        [| injection Hstep as <- _; now left].
      destruct (attempt st + 1 <? FLOAT_OVERFLOW_EXP) eqn:Hfl;
        [discriminate |].
      injection Hstep as <- _. right; right.
      apply Z.ltb_lt in Hlt. apply Z.ltb_ge in Hfl. split; [lia | reflexivity].
  - rewrite (step_fails net self endpoint params headers data method
               max_retries st tr x allowed Hs Hnet) in Hstep.
    destruct (attempt st + 1 <? max_retries) eqn:Hlt;
      [| injection Hstep as <- _; now left].
    destruct (attempt st + 1 <? FLOAT_OVERFLOW_EXP) eqn:Hfl;
      [discriminate |].
    injection Hstep as <- _. right; right.
    apply Z.ltb_lt in Hlt. apply Z.ltb_ge in Hfl. split; [lia | reflexivity].
  - rewrite (step_crashes net self endpoint params headers data method
               max_retries st tr x allowed Hnet) in Hstep.
    injection Hstep as <- _. right; left.
    now exists (List.length (requests_made tr)), x.
Qed.

Lemma loop_raises (fuel : nat) :
  forall (st : loop_state) (tr tr' : trace) (e : exn),
    loop fuel st tr = (Raise e, tr') ->
    e = RequestFailed method max_retries
    \/ (exists n x, net n the_call = Crashes x /\ e = OtherException x)
    \/ (FLOAT_OVERFLOW_EXP < max_retries /\ e = OverflowError).
Proof.
  induction fuel as [| fuel IH]; intros st tr tr' e Hrun;
    destruct ((attempt st <? max_retries) && negb (successful st)) eqn:Hc;
    try (rewrite (loop_done _ _ _ _ _ _ _ _ _ st Hc) in Hrun; discriminate).
  - simpl in Hrun. rewrite Hc in Hrun. discriminate.
  - rewrite (loop_again _ _ _ _ _ _ _ _ _ st Hc) in Hrun.
    unfold bind in Hrun.
    apply andb_true_iff in Hc. destruct Hc as [_ Hs].
    apply negb_true_iff in Hs.
    destruct (step st tr) as [[st1 | e1 |] tr1] eqn:Hstep;
      [exact (IH _ _ _ _ Hrun) | | discriminate].
    injection Hrun as <- _. exact (step_raises st tr tr1 e1 Hs Hstep).
Qed.

(** With at least one attempt allowed, the loop ends normally only with
    [successful] set. *)
Lemma loop_exit_successful (fuel : nat) :
  forall (st st' : loop_state) (tr tr' : trace),
    (successful st = false -> attempt st < max_retries) ->
    loop fuel st tr = (Return st', tr') ->
    successful st' = true.
Proof.
  induction fuel as [| fuel IH]; intros st st' tr tr' Hinv Hrun;
    destruct ((attempt st <? max_retries) && negb (successful st)) eqn:Hc;
    try (rewrite (loop_done _ _ _ _ _ _ _ _ _ st Hc) in Hrun;
         injection Hrun as <- _;
         destruct (successful st); [reflexivity |];
         specialize (Hinv eq_refl); apply Z.ltb_lt in Hinv;
         rewrite Hinv in Hc; discriminate).
  - simpl in Hrun. rewrite Hc in Hrun. discriminate.
  - rewrite (loop_again _ _ _ _ _ _ _ _ _ st Hc) in Hrun.
    unfold bind in Hrun.
    apply andb_true_iff in Hc. destruct Hc as [_ Hs].
    apply negb_true_iff in Hs.
    destruct (unsuccessful (net (List.length (requests_made tr)) the_call)
              && (attempt st + 1 <? max_retries)
              && (attempt st + 1 <? FLOAT_OVERFLOW_EXP)) eqn:Hmore.
    + apply andb_true_iff in Hmore. destruct Hmore as [Hmore Hfl].
      apply andb_true_iff in Hmore. destruct Hmore as [Hun Hlt].
      apply Z.ltb_lt in Hlt. apply Z.ltb_lt in Hfl.
      destruct (step_retried net self endpoint params headers data method
                  max_retries allowed st tr Hs Hlt Hfl Hun)
        as [st1 [tr1 [Hstep [Hatt [Hs1 _]]]]].
      rewrite Hstep in Hrun. apply (IH st1 st' tr1 tr'); [| exact Hrun].
      intros _. lia.
    + destruct (step_last net self endpoint params headers data method
                  max_retries allowed st tr Hs Hmore)
        as [o1 [tr1 [Hstep [_ Hret]]]].
      rewrite Hstep in Hrun.
      destruct o1 as [st1 | e1 |]; try discriminate.
      apply (IH st1 st' tr1 tr'); [| exact Hrun].
      intros Hs1. rewrite (Hret st1 eq_refl) in Hs1. discriminate.
Qed.

Lemma request_raises_allowed (e : exn) :
  fst (request py_str net self endpoint params headers data method
         max_retries []) = Raise e ->
  (max_retries <= 0 /\ e = UnboundLocalError "r")
  \/ (exists msg, e = TradierApiError msg)
  \/ e = TypeError
  \/ (exists n x, net n the_call = Crashes x /\ e = OtherException x)
  \/ (FLOAT_OVERFLOW_EXP < max_retries /\ e = OverflowError).
Proof.
  rewrite (request_allowed py_str net self endpoint params headers data method
             max_retries [] allowed).
  unfold bind.
  destruct (loop (Z.to_nat max_retries) (mk_loop_state 0 false None) [])
    as [[st | e1 |] tr1] eqn:Hloop; simpl; [| | discriminate].
  - destruct (check_response py_str st tr1) as [o tr2] eqn:Hcheck. simpl.
    intros ->.
    destruct (check_response_raises py_str st tr1 tr2 e Hcheck)
      as [[Hnone He] | [Hmsg | Hty]]; [| now right; left | now right; right; left].
    left. split; [| exact He].
    destruct (Z_le_dec max_retries 0) as [Hle | Hgt]; [exact Hle |].
    assert (Hinit : successful (mk_loop_state 0 false None) = false ->
                    attempt (mk_loop_state 0 false None) < max_retries)
      by (simpl; lia).
    pose proof (loop_exit_successful _ _ _ _ _ Hinit Hloop) as Hsucc.
    assert (Hinv0 : loop_inv net max_retries (mk_loop_state 0 false None) [])
      by (now right).
    destruct (loop_inv_exit net self endpoint params headers data method
                max_retries _ allowed _ _ _ _ Hinv0 Hloop) as [Hinv _].
    unfold loop_inv in Hinv. rewrite Hsucc in Hinv.
    destruct Hinv as [resp [Hr _]]. congruence.
  - intros [= <-].
    destruct (loop_raises _ _ _ _ _ Hloop) as [-> | [Hcrash | Hover]].
    + right; left. now eexists.
    + now right; right; right; left.
    + now right; right; right; right.
Qed.

End Failures.



(** X11. Every transport call of [request] goes to
    [<base_url>/<endpoint>]: an instance built for paper trading only
    calls the sandbox host, never the live one, and the other way round. *)
Theorem request_targets_selected_host (py_str : json -> string)
    (net : transport) (self : TradierApiBase) (endpoint : string)
    (params headers data : option (dict string)) (method : string)
    (max_retries : Z) (c : http_call) :
  In (EvRequest c)
    (snd (request py_str net self endpoint params headers data method
            max_retries [])) ->
  call_url c = (base_url self ++ "/" ++ endpoint)%string
  /\ prefix (if is_paper self then TRADIER_SANDBOX_URL else TRADIER_LIVE_URL)
       (call_url c) = true
  /\ prefix (if is_paper self then TRADIER_LIVE_URL else TRADIER_SANDBOX_URL)
       (call_url c) = false.
Proof.
  intros Hin.
  destruct (request_calls py_str net self endpoint params headers data method
              max_retries []) as [ext [Hext [Hall _]]].
  rewrite Hext in Hin. simpl in Hin.
  assert (Hc : In (EvRequest c) (requests_made ext))
    by (apply filter_In; now split).
  rewrite Forall_forall in Hall. specialize (Hall _ Hc).
  injection Hall as <-. simpl. unfold url, base_url.
  destruct (is_paper self); repeat split.
Qed.

Lemma request_targets_selected_host_witness :
  In (EvRequest (call_for demo "v1/markets/quotes" None None None "get"))
    (snd (request py_str_stub (always (Responds resp_200)) demo
            "v1/markets/quotes" None None None "get" 3 []))
  /\ call_url (call_for demo "v1/markets/quotes" None None None "get")
     = "https://sandbox.tradier.com/v1/markets/quotes"
  /\ prefix TRADIER_LIVE_URL
       (call_url (call_for demo "v1/markets/quotes" None None None "get"))
     = false.
Proof.
  split; [now left |].
  destruct (request_targets_selected_host py_str_stub
              (always (Responds resp_200)) demo "v1/markets/quotes" None None
              None "get" 3
              (call_for demo "v1/markets/quotes" None None None "get")
              (or_introl eq_refl)) as [Hurl [_ Hlive]].
  split; [exact Hurl | exact Hlive].
Defined.



(** ** The further properties at sample inputs *)








(** ** Further properties of [date2str] *)

Lemma date2str_date_digits (d : datetime) :
  datetime_in_range d = true ->
  1000 <= year (dt_date d) ->
  date2str (ADateTime d) false
  = (digits4 (year (dt_date d)) ++ "-" ++ digits2 (month (dt_date d)) ++ "-"
     ++ digits2 (day (dt_date d)))%string.
Proof.
  intros Hd Hyear.
  destruct (datetime_in_range_bounds d Hd) as [[Hy [Hm Hdd]] _].
  unfold date2str. simpl negb. cbv iota. rewrite strftime_date.
  now rewrite str_of_int_4_digits, !zfill_2_digits by lia.
Qed.

Lemma date2str_minute_digits (d : datetime) :
  datetime_in_range d = true ->
  1000 <= year (dt_date d) ->
  date2str (ADateTime d) true
  = (digits4 (year (dt_date d)) ++ "-" ++ digits2 (month (dt_date d)) ++ "-"
     ++ digits2 (day (dt_date d)) ++ " " ++ digits2 (hour d) ++ ":"
     ++ digits2 (minute d))%string.
Proof.
  intros Hd Hyear.
  destruct (datetime_in_range_bounds d Hd) as [[Hy [Hm Hdd]] [HH HM]].
  unfold date2str. simpl negb. cbv iota. rewrite strftime_minute.
  now rewrite str_of_int_4_digits, !zfill_2_digits by lia.
Qed.

Lemma date2str_date_of_datetime (d : datetime) (include_min : bool) :
  date2str (ADate (dt_date d)) include_min
  = date2str (ADateTime (at_midnight (dt_date d))) include_min.
Proof. reflexivity. Qed.

(** X14. On datetimes from the year 1000 on [date2str] has a fixed width,
    10 characters and 16 with [include_min], and loses nothing it prints:
    two datetimes with the same "YYYY-MM-DD" string have the same date,
    and with the same "YYYY-MM-DD HH:MM" string also the same hour and
    minute. *)
Theorem date2str_injective (d1 d2 : datetime) :
  datetime_in_range d1 = true ->
  datetime_in_range d2 = true ->
  1000 <= year (dt_date d1) ->
  1000 <= year (dt_date d2) ->
  String.length (date2str (ADateTime d1) false) = 10%nat
  /\ String.length (date2str (ADateTime d1) true) = 16%nat
  /\ (date2str (ADateTime d1) false = date2str (ADateTime d2) false ->
      dt_date d1 = dt_date d2)
  /\ (date2str (ADateTime d1) true = date2str (ADateTime d2) true ->
      d1 = d2).
Proof.
  intros H1 H2 Y1 Y2.
  destruct (datetime_in_range_bounds d1 H1) as [[Hy1 [Hm1 Hd1]] [HH1 HM1]].
  destruct (datetime_in_range_bounds d2 H2) as [[Hy2 [Hm2 Hd2]] [HH2 HM2]].
  rewrite !(date2str_date_digits d1 H1 Y1), !(date2str_minute_digits d1 H1 Y1).
  rewrite (date2str_date_digits d2 H2 Y2), (date2str_minute_digits d2 H2 Y2).
  split; [reflexivity |]. split; [reflexivity |]. split.
  - intros Heq.
    destruct (digits4_digits2_iso_date (year (dt_date d1))
                (month (dt_date d1)) (day (dt_date d1)))
      as [_ [Ey [Em Ed]]]; try lia.
    destruct (digits4_digits2_iso_date (year (dt_date d2))
                (month (dt_date d2)) (day (dt_date d2)))
      as [_ [Ey' [Em' Ed']]]; try lia.
    rewrite Heq in Ey, Em, Ed.
    destruct d1 as [[y1 m1 dd1] h1 n1], d2 as [[y2 m2 dd2] h2 n2].
    simpl in *. congruence.
  - intros Heq.
    destruct (digits4_digits2_iso_minute (year (dt_date d1))
                (month (dt_date d1)) (day (dt_date d1)) (hour d1) (minute d1))
      as [_ [Ey [Em [Ed [EH EM]]]]]; try lia.
    destruct (digits4_digits2_iso_minute (year (dt_date d2))
                (month (dt_date d2)) (day (dt_date d2)) (hour d2) (minute d2))
      as [_ [Ey' [Em' [Ed' [EH' EM']]]]]; try lia.
    rewrite Heq in Ey, Em, Ed, EH, EM.
    destruct d1 as [[y1 m1 dd1] h1 n1], d2 as [[y2 m2 dd2] h2 n2].
    simpl in *. congruence.
Qed.

Lemma date2str_injective_witness :
  datetime_in_range sample_datetime_2024 = true
  /\ datetime_in_range sample_datetime_2024 = true
  /\ 1000 <= year (dt_date sample_datetime_2024)
  /\ 1000 <= year (dt_date sample_datetime_2024)
  /\ String.length (date2str (ADateTime sample_datetime_2024) false) = 10%nat
  /\ String.length (date2str (ADateTime sample_datetime_2024) true) = 16%nat.
Proof.
  assert (Hyear : 1000 <= year (dt_date sample_datetime_2024))
    by (simpl; lia).
  split; [reflexivity |]. split; [reflexivity |].
  split; [exact Hyear |]. split; [exact Hyear |].
  destruct (date2str_injective sample_datetime_2024 sample_datetime_2024
              eq_refl eq_refl Hyear Hyear)
    as [H10 [H16 _]].
  split; [exact H10 | exact H16].
Defined.

Lemma digit_char_compare (a b : Z) :
  0 <= a <= 9 -> 0 <= b <= 9 ->
  Ascii.compare (digit_char a) (digit_char b) = (a ?= b).
Proof.
  intros Ha Hb.
  assert (H : digit_compare_ok a = true)
    by (apply (holds_from_spec digit_compare_ok (Z.to_nat 10) 0);
        [vm_compute; reflexivity | lia]).
  unfold digit_compare_ok in H.
  pose proof (holds_from_spec _ _ _ H b ltac:(lia)) as Hab. simpl in Hab.
  destruct (Ascii.compare (digit_char a) (digit_char b)), (a ?= b);
    first [reflexivity | discriminate].
Qed.

Lemma compare_digits2 (a b : Z) (s1 s2 : string) :
  0 <= a <= 99 -> 0 <= b <= 99 ->
  String.compare (digits2 a ++ s1) (digits2 b ++ s2)
  = lex (a ?= b) (String.compare s1 s2).
Proof.
  intros Ha Hb. unfold digits2. simpl.
  rewrite !digit_char_compare by (Z.div_mod_to_equations; lia).
  destruct (Z.compare_spec (a / 10) (b / 10)) as [H1 | H1 | H1];
    destruct (Z.compare_spec (a mod 10) (b mod 10)) as [H2 | H2 | H2];
    destruct (Z.compare_spec a b) as [H | H | H]; try reflexivity;
    exfalso; Z.div_mod_to_equations; lia.
Qed.

Lemma digits4_split (n : Z) :
  0 <= n <= 9999 ->
  digits4 n = (digits2 (n / 100) ++ digits2 (n mod 100))%string.
Proof.
  intros Hn. apply String.eqb_eq.
  apply (holds_from_spec digits4_split_ok (Z.to_nat 10000) 0);
    [vm_compute; reflexivity | lia].
Qed.

Lemma compare_digits4 (a b : Z) (s1 s2 : string) :
  0 <= a <= 9999 -> 0 <= b <= 9999 ->
  String.compare (digits4 a ++ s1) (digits4 b ++ s2)
  = lex (a ?= b) (String.compare s1 s2).
Proof.
  intros Ha Hb. rewrite !digits4_split by lia.
  assert (E : forall x y s,
             ((digits2 x ++ digits2 y) ++ s)%string
             = (digits2 x ++ (digits2 y ++ s))%string) by reflexivity.
  rewrite !E.
  rewrite !compare_digits2 by (Z.div_mod_to_equations; lia).
  destruct (Z.compare_spec (a / 100) (b / 100)) as [H1 | H1 | H1];
    destruct (Z.compare_spec (a mod 100) (b mod 100)) as [H2 | H2 | H2];
    destruct (Z.compare_spec a b) as [H | H | H]; try reflexivity;
    exfalso; Z.div_mod_to_equations; lia.
Qed.

Lemma compare_separator (c : ascii) (s1 s2 : string) :
  String.compare (String c "" ++ s1) (String c "" ++ s2)
  = String.compare s1 s2.
Proof.
  simpl. unfold Ascii.compare. now rewrite N.compare_refl.
Qed.

Lemma compare_digits2_end (a b : Z) :
  0 <= a <= 99 -> 0 <= b <= 99 ->
  String.compare (digits2 a) (digits2 b) = (a ?= b).
Proof.
  intros Ha Hb.
  rewrite <- (append_empty_r (digits2 a)), <- (append_empty_r (digits2 b)).
  rewrite compare_digits2 by lia. simpl. now destruct (a ?= b).
Qed.

(** X15. On datetimes from the year 1000 on the strings of [date2str]
    sort as the dates do: comparing two of them character by character
    gives the chronological order of the dates, and with [include_min] of
    the datetimes to the minute. *)
Theorem date2str_sorts_chronologically (d1 d2 : datetime) :
  datetime_in_range d1 = true ->
  datetime_in_range d2 = true ->
  1000 <= year (dt_date d1) ->
  1000 <= year (dt_date d2) ->
  String.compare (date2str (ADateTime d1) false) (date2str (ADateTime d2) false)
  = compare_date (dt_date d1) (dt_date d2)
  /\ String.compare (date2str (ADateTime d1) true)
       (date2str (ADateTime d2) true)
     = compare_minute d1 d2.
Proof.
  intros H1 H2 Y1 Y2.
  destruct (datetime_in_range_bounds d1 H1) as [[Hy1 [Hm1 Hd1]] [HH1 HM1]].
  destruct (datetime_in_range_bounds d2 H2) as [[Hy2 [Hm2 Hd2]] [HH2 HM2]].
  rewrite (date2str_date_digits d1 H1 Y1), (date2str_minute_digits d1 H1 Y1).
  rewrite (date2str_date_digits d2 H2 Y2), (date2str_minute_digits d2 H2 Y2).
  unfold compare_date, compare_minute. split.
  - rewrite compare_digits4, compare_separator, compare_digits2,
      compare_separator, compare_digits2_end by lia.
    reflexivity.
  - rewrite compare_digits4, compare_separator, compare_digits2,
      compare_separator, compare_digits2, compare_separator, compare_digits2,
      compare_separator, compare_digits2_end by lia.
    reflexivity.
Qed.

Lemma date2str_sorts_chronologically_witness :
  datetime_in_range (mk_datetime (mk_date 1999 12 31) 23 59) = true
  /\ datetime_in_range sample_datetime_2024 = true
  /\ 1000 <= year (dt_date (mk_datetime (mk_date 1999 12 31) 23 59))
  /\ 1000 <= year (dt_date sample_datetime_2024)
  /\ String.compare
       (date2str (ADateTime (mk_datetime (mk_date 1999 12 31) 23 59)) true)
       (date2str (ADateTime sample_datetime_2024) true)
     = Lt.
Proof.
  assert (Y1 : 1000 <= year (dt_date (mk_datetime (mk_date 1999 12 31) 23 59)))
    by (simpl; lia).
  assert (Y2 : 1000 <= year (dt_date sample_datetime_2024)) by (simpl; lia).
  split; [reflexivity |]. split; [reflexivity |].
  split; [exact Y1 |]. split; [exact Y2 |].
  destruct (date2str_sorts_chronologically
              (mk_datetime (mk_date 1999 12 31) 23 59) sample_datetime_2024
              eq_refl eq_refl Y1 Y2)
    as [_ Hminute].
  exact Hminute.
Defined.

(** ** Further properties of the whole call *)

(** X16. When the caller passes the instance's own [REQUESTS_HEADERS],
    every transport call of [request], retries included, carries the
    bearer token and the JSON [Accept] header set up by [__init__]. *)
Theorem request_with_instance_headers (py_str : json -> string)
    (net : transport) (account_number auth_token : string) (is_paper : bool)
    (endpoint : string) (params data : option (dict string))
    (method : string) (max_retries : Z) (c : http_call) :
  let self := init account_number auth_token is_paper in
  In (EvRequest c)
    (snd (request py_str net self endpoint params
            (Some (REQUESTS_HEADERS self)) data method max_retries [])) ->
  exists hs,
    call_headers c = Some hs
    /\ dict_get "Authorization" hs = Some ("Bearer " ++ auth_token)%string
    /\ dict_get "Accept" hs = Some "application/json".
Proof.
  intros self Hin.
  destruct (request_calls py_str net self endpoint params
              (Some (REQUESTS_HEADERS self)) data method max_retries [])
    as [ext [Hext [Hall _]]].
  rewrite Hext in Hin. simpl in Hin.
  assert (Hc : In (EvRequest c) (requests_made ext))
    by (apply filter_In; now split).
  rewrite Forall_forall in Hall. specialize (Hall _ Hc).
  injection Hall as <-. exists (REQUESTS_HEADERS self). repeat split.
Qed.

Lemma request_with_instance_headers_witness :
  In (EvRequest
        (call_for demo "v1/user/profile" None (Some (REQUESTS_HEADERS demo))
           None "get"))
    (snd (request py_str_stub (always (Responds resp_200))
            (init "VA000001" "token" true) "v1/user/profile" None
            (Some (REQUESTS_HEADERS (init "VA000001" "token" true))) None
            "get" 3 []))
  /\ exists hs,
       call_headers
         (call_for demo "v1/user/profile" None (Some (REQUESTS_HEADERS demo))
            None "get") = Some hs
       /\ dict_get "Authorization" hs = Some "Bearer token"
       /\ dict_get "Accept" hs = Some "application/json".
Proof.
  split; [now left |].
  apply (request_with_instance_headers py_str_stub
           (always (Responds resp_200)) "VA000001" "token" true
           "v1/user/profile" None None "get" 3).
  now left.
Defined.




